(** * Tarteel: the recitation player of src/app/page.js

    A shallow embedding of the [useQuranPlayer] hook and of
    [quranApiService] (page.js) and of [fetchContentData]
    (src/apiService.js), followed by the properties of the playback
    synchronisation state machine and of the content provider.

    JavaScript numbers that hold indices and chapter numbers are modelled
    by [Z] (the code only ever adds or subtracts one), strings by
    [string], arrays by [list], [null] by [None].  A React state cell is a
    field of [State]; a [useRef] cell is a field as well.  Every handler
    takes the render it was created in (the values its closure captured)
    and the current state its functional updaters are applied to.

    One event is handled in one piece: the handler of the latest render
    runs, React batches its updates into one render, and the effects whose
    dependencies changed run after it ([dispatch]).  The only closure that
    outlives its render is the continuation of [fetchSurahData], which
    runs when its fetch settles, with the selection and the [isPlaying] it
    captured ([FetchClosure]).  Three fields of [State] are not cells of
    the hook: [surahDataGen] stands for the identity of the bundle object
    (dependency arrays compare by identity), [listening] for the
    listeners the audio effect has attached, [inflight] for the promises
    that have not settled yet. *)

From Stdlib Require Import ZArith List String Bool Lia.
Import ListNotations.
Local Open Scope string_scope.
Local Open Scope Z_scope.

(** ** Constants *)

Definition TOTAL_SURAHS : Z := 114.

(** ** The content provider: [quranApiService.getSurahData] *)

Module Api.

(** One element of an edition's [ayahs] array as the service sends it. *)
Record RawAyah := mkRawAyah {
  raw_number : Z;
  raw_numberInSurah : Z;
  raw_audio : string;
  raw_text : string
}.

(** One element of [json.data]: a surah rendered in one edition. *)
Record EditionData := mkEditionData {
  edition_identifier : string;      (* d.edition.identifier *)
  ed_number : Z;
  ed_englishName : string;
  ed_ayahs : list RawAyah
}.

(** The [data] member of the JSON envelope: an array of editions on
    success, a message on failure, or missing. *)
Inductive JsonData :=
| DataArray (l : list EditionData)
| DataString (s : string)
| DataMissing.

Record Json := mkJson { code : Z; data : JsonData }.

(** What [fetch] and [res.json()] deliver.  [body = None] stands for a
    body that is not JSON, in which case [res.json()] rejects with
    [parse_message]. *)
Record Response := mkResponse {
  ok : bool;
  statusText : string;
  body : option Json;
  parse_message : string
}.

Inductive Outcome :=
| NetworkFailure (message : string)   (* fetch itself rejects *)
| Responded (res : Response).

(** An ayah of the combined bundle: [{...ayah, textArabic, textEnglish}]. *)
Record Ayah := mkAyah {
  number : Z;
  numberInSurah : Z;
  audio : string;
  text : string;
  textArabic : string;
  textEnglish : string
}.

(** The bundle [{...audioData, ayahs: combinedAyahs}]. *)
Record SurahData := mkSurahData {
  sd_edition : string;
  sd_number : Z;
  sd_englishName : string;
  ayahs : list Ayah
}.

Inductive Result :=
| Threw (message : string)
| Returned (d : SurahData).

(** JavaScript truthiness and string conversion of [json.data]. *)
Definition truthy (d : JsonData) : bool :=
  match d with
  | DataArray _ => true
  | DataString s => negb (String.eqb s "")
  | DataMissing => false
  end.

Definition to_string (d : JsonData) : string :=
  match d with
  | DataArray l => String.concat "," (map (fun _ => "[object Object]") l)
  | DataString s => s
  | DataMissing => "undefined"
  end.

(** [x || dflt] inside a template literal or an [Error] constructor. *)
Definition or_else (d : JsonData) (dflt : string) : string :=
  if truthy d then to_string d else dflt.

(** [s || dflt] on a string that may be missing ([a[i]?.text]). *)
Definition text_or (o : option string) (dflt : string) : string :=
  match o with
  | Some s => if String.eqb s "" then dflt else s
  | None => dflt
  end.

Definition find_edition (id : string) (l : list EditionData) : option EditionData :=
  find (fun d => String.eqb (edition_identifier d) id) l.

Definition BASMALAH : string := "بِسْمِ ٱللَّهِ ٱلرَّحْمَٰنِ ٱلرَّحِيمِ".
Definition BASMALAH_EN : string :=
  "In the name of Allah, the Entirely Merciful, the Especially Merciful.".

(** [audioData.ayahs.map((ayah, i) => ...)], with [i] counted from [i0]. *)
Fixpoint combine_from (i0 : nat) (txt trans : list RawAyah) (au : list RawAyah)
  : list Ayah :=
  match au with
  | [] => []
  | a :: rest =>
      {| number := raw_number a;
         numberInSurah := raw_numberInSurah a;
         audio := raw_audio a;
         text := raw_text a;
         textArabic := text_or (option_map raw_text (nth_error txt i0)) BASMALAH;
         textEnglish := text_or (option_map raw_text (nth_error trans i0)) BASMALAH_EN |}
      :: combine_from (S i0) txt trans rest
  end.

Definition combinedAyahs (audioData textData translationData : EditionData) : list Ayah :=
  combine_from 0 (ed_ayahs textData) (ed_ayahs translationData) (ed_ayahs audioData).

(** [getSurahData(surahNumber, editionId)], as a function of what the
    network answers for the URL built from its two arguments. *)
Definition getSurahData (editionId : string) (o : Outcome) : Result :=
  match o with
  | NetworkFailure m => Threw m
  | Responded res =>
      if negb (ok res) then
        let errorBody_data :=
          match body res with
          | Some j => data j
          | None => DataString (statusText res)
          end in
        Threw ("Failed to fetch surah data: " ++ or_else errorBody_data (statusText res))%string
      else
        match body res with
        | None => Threw (parse_message res)
        | Some json =>
            match data json with
            | DataArray l =>
                if negb (code json =? 200) then
                  Threw (or_else (data json) "Invalid data structure received for surah.")
                else
                  match find_edition editionId l,
                        find_edition "quran-uthmani" l,
                        find_edition "en.sahih" l with
                  | Some audioData, Some textData, Some translationData =>
                      Returned {| sd_edition := edition_identifier audioData;
                                  sd_number := ed_number audioData;
                                  sd_englishName := ed_englishName audioData;
                                  ayahs := combinedAyahs audioData textData translationData |}
                  | _, _, _ =>
                      Threw "One or more required editions could not be found for this surah."
                  end
            | d => Threw (or_else d "Invalid data structure received for surah.")
            end
        end
  end.

End Api.

Import Api.

(** ** The audio element behind [audioRef]

    Only what the hook touches: the [src] attribute and the methods it
    calls.  [src] reads back what was assigned last (the locators the
    service sends are absolute URLs); [calls] records the assignments and
    the method calls, newest first. *)

Inductive AudioCall :=
| SetSrc (url : string)
| Load
| Play
| Pause.

Record AudioElement := mkAudio {
  src : string;
  calls : list AudioCall
}.

Definition audio_call (c : AudioCall) (a : AudioElement) : AudioElement :=
  {| src := match c with SetSrc u => u | _ => src a end;
     calls := c :: calls a |}.

Definition is_load (c : AudioCall) : bool :=
  match c with Load => true | _ => false end.
Definition is_play (c : AudioCall) : bool :=
  match c with Play => true | _ => false end.
Definition is_set_src (c : AudioCall) : bool :=
  match c with SetSrc _ => true | _ => false end.

Definition loads (a : AudioElement) : nat := List.length (filter is_load (calls a)).
Definition plays (a : AudioElement) : nat := List.length (filter is_play (calls a)).
Definition assignments (a : AudioElement) : nat := List.length (filter is_set_src (calls a)).

(** ** State of [useQuranPlayer] *)

(** What the closure of one run of the surah-change effect captured: the
    selection it fetches and the [isPlaying] of its render. *)
Record FetchClosure := mkFetch {
  fc_surah : Z;
  fc_edition : string;
  fc_isPlaying : bool
}.

Record State := mkState {
  selectedSurahNum : Z;
  selectedEditionId : string;
  surahData : option SurahData;
  surahDataGen : nat;            (* identity of the object held in surahData *)
  currentAyahIndex : Z;
  isPlaying : bool;
  isLoading : bool;
  error : option string;
  continuousPlay : bool;
  autoPlayOnLoadRef : bool;
  audioRef : AudioElement;
  listening : bool;              (* the audio effect's listeners are attached *)
  inflight : list FetchClosure   (* fetches awaiting their answer, oldest first *)
}.

(** State setters.  The [_with] forms are the functional updaters
    ([setX(prev => ...)]). *)

Definition setSelectedSurahNum_with (f : Z -> Z) (s : State) : State :=
  mkState (f (selectedSurahNum s)) (selectedEditionId s) (surahData s) (surahDataGen s)
    (currentAyahIndex s) (isPlaying s) (isLoading s) (error s) (continuousPlay s)
    (autoPlayOnLoadRef s) (audioRef s) (listening s) (inflight s).

Definition setSelectedSurahNum (n : Z) : State -> State :=
  setSelectedSurahNum_with (fun _ => n).

Definition setSelectedEditionId (e : string) (s : State) : State :=
  mkState (selectedSurahNum s) e (surahData s) (surahDataGen s)
    (currentAyahIndex s) (isPlaying s) (isLoading s) (error s) (continuousPlay s)
    (autoPlayOnLoadRef s) (audioRef s) (listening s) (inflight s).

(** A fetched bundle is a fresh object; [null] is not an object. *)
Definition setSurahData (d : option SurahData) (s : State) : State :=
  mkState (selectedSurahNum s) (selectedEditionId s) d
    (match d with Some _ => S (surahDataGen s) | None => surahDataGen s end)
    (currentAyahIndex s) (isPlaying s) (isLoading s) (error s) (continuousPlay s)
    (autoPlayOnLoadRef s) (audioRef s) (listening s) (inflight s).

Definition setCurrentAyahIndex_with (f : Z -> Z) (s : State) : State :=
  mkState (selectedSurahNum s) (selectedEditionId s) (surahData s) (surahDataGen s)
    (f (currentAyahIndex s)) (isPlaying s) (isLoading s) (error s) (continuousPlay s)
    (autoPlayOnLoadRef s) (audioRef s) (listening s) (inflight s).

Definition setCurrentAyahIndex (i : Z) : State -> State :=
  setCurrentAyahIndex_with (fun _ => i).

Definition setIsPlaying_with (f : bool -> bool) (s : State) : State :=
  mkState (selectedSurahNum s) (selectedEditionId s) (surahData s) (surahDataGen s)
    (currentAyahIndex s) (f (isPlaying s)) (isLoading s) (error s) (continuousPlay s)
    (autoPlayOnLoadRef s) (audioRef s) (listening s) (inflight s).

Definition setIsPlaying (b : bool) : State -> State :=
  setIsPlaying_with (fun _ => b).

Definition setIsLoading (b : bool) (s : State) : State :=
  mkState (selectedSurahNum s) (selectedEditionId s) (surahData s) (surahDataGen s)
    (currentAyahIndex s) (isPlaying s) b (error s) (continuousPlay s)
    (autoPlayOnLoadRef s) (audioRef s) (listening s) (inflight s).

Definition setError (e : option string) (s : State) : State :=
  mkState (selectedSurahNum s) (selectedEditionId s) (surahData s) (surahDataGen s)
    (currentAyahIndex s) (isPlaying s) (isLoading s) e (continuousPlay s)
    (autoPlayOnLoadRef s) (audioRef s) (listening s) (inflight s).

Definition setContinuousPlay_with (f : bool -> bool) (s : State) : State :=
  mkState (selectedSurahNum s) (selectedEditionId s) (surahData s) (surahDataGen s)
    (currentAyahIndex s) (isPlaying s) (isLoading s) (error s) (f (continuousPlay s))
    (autoPlayOnLoadRef s) (audioRef s) (listening s) (inflight s).

(** [autoPlayOnLoadRef.current = b] *)
Definition set_autoPlayOnLoadRef (b : bool) (s : State) : State :=
  mkState (selectedSurahNum s) (selectedEditionId s) (surahData s) (surahDataGen s)
    (currentAyahIndex s) (isPlaying s) (isLoading s) (error s) (continuousPlay s)
    b (audioRef s) (listening s) (inflight s).

Definition with_audio (f : AudioElement -> AudioElement) (s : State) : State :=
  mkState (selectedSurahNum s) (selectedEditionId s) (surahData s) (surahDataGen s)
    (currentAyahIndex s) (isPlaying s) (isLoading s) (error s) (continuousPlay s)
    (autoPlayOnLoadRef s) (f (audioRef s)) (listening s) (inflight s).

Definition set_listening (b : bool) (s : State) : State :=
  mkState (selectedSurahNum s) (selectedEditionId s) (surahData s) (surahDataGen s)
    (currentAyahIndex s) (isPlaying s) (isLoading s) (error s) (continuousPlay s)
    (autoPlayOnLoadRef s) (audioRef s) b (inflight s).

Definition set_inflight (l : list FetchClosure) (s : State) : State :=
  mkState (selectedSurahNum s) (selectedEditionId s) (surahData s) (surahDataGen s)
    (currentAyahIndex s) (isPlaying s) (isLoading s) (error s) (continuousPlay s)
    (autoPlayOnLoadRef s) (audioRef s) (listening s) l.

(** [a[i]] on an array: [undefined] outside [0 .. length-1]. *)
Definition index {A : Type} (l : list A) (i : Z) : option A :=
  if i <? 0 then None else nth_error l (Z.to_nat i).

Definition length_of (d : SurahData) : Z := Z.of_nat (List.length (ayahs d)).

(** ** Playback controls *)

Definition handleNextAyah (r s : State) : State :=
  match surahData r with
  | None => s
  | Some d =>
      let isLastAyah := currentAyahIndex r >=? length_of d - 1 in
      if isLastAyah then
        if continuousPlay r && (selectedSurahNum r <? TOTAL_SURAHS)
        then setSelectedSurahNum_with (fun n => n + 1) s
        else setIsPlaying false s
      else
        set_autoPlayOnLoadRef true (setCurrentAyahIndex_with (fun prev => prev + 1) s)
  end.

Definition handlePrevAyah (r s : State) : State :=
  if currentAyahIndex r >? 0 then
    set_autoPlayOnLoadRef true (setCurrentAyahIndex_with (fun prev => prev - 1) s)
  else if selectedSurahNum r >? 1 then
    setSelectedSurahNum_with (fun n => n - 1) s
  else s.

Definition handleNextSurah (r s : State) : State :=
  if selectedSurahNum r <? TOTAL_SURAHS
  then setSelectedSurahNum_with (fun n => n + 1) s
  else s.

Definition handlePrevSurah (r s : State) : State :=
  if selectedSurahNum r >? 1
  then setSelectedSurahNum_with (fun n => n - 1) s
  else s.

Definition togglePlayPause (s : State) : State := setIsPlaying_with negb s.

(** ** The effect that controls the audio element *)

(** [playAudio]: the call itself; a rejected promise comes back later as
    the event [PlayRejected]. *)
Definition playAudio (s : State) : State := with_audio (audio_call Play) s.

Definition handleCanPlay (s : State) : State :=
  if autoPlayOnLoadRef s
  then set_autoPlayOnLoadRef false (playAudio s)
  else s.

Definition audio_effect (s : State) : State :=
  match surahData s with
  | None => set_listening false s
  | Some d =>
      match index (ayahs d) (currentAyahIndex s) with
      | None => set_listening false s
      | Some currentAyah =>
          let isNewSrc := negb (String.eqb (src (audioRef s)) (audio currentAyah)) in
          let s1 :=
            if isNewSrc
            then with_audio (fun a => audio_call Load (audio_call (SetSrc (audio currentAyah)) a)) s
            else s in
          let s2 :=
            if isPlaying s then
              if isNewSrc then set_autoPlayOnLoadRef true s1 else playAudio s1
            else with_audio (audio_call Pause) s1 in
          set_listening true s2
      end
  end.

(** ** The effect that fetches the selected surah *)

(** The synchronous part: up to the [await]. *)
Definition surah_change_effect (s : State) : State :=
  if (selectedSurahNum s =? 0) || String.eqb (selectedEditionId s) "" then s
  else
    set_inflight
      (inflight s ++ [mkFetch (selectedSurahNum s) (selectedEditionId s) (isPlaying s)])%list
      (setError None (setIsLoading true s)).

(** The continuation of [fetchSurahData] after the [await], run in the
    closure [c] on the state [s] current at that time. *)
Definition fetchSurahData (c : FetchClosure) (r : Result) (s : State) : State :=
  setIsLoading false
    match r with
    | Returned data =>
        let s1 := setCurrentAyahIndex 0 (setSurahData (Some data) s) in
        if fc_isPlaying c then set_autoPlayOnLoadRef true s1 else s1
    | Threw message =>
        setIsPlaying false (setSurahData None (setError (Some message) s))
    end.

(** ** Events and rendering *)

Inductive Event :=
| ClickPlayPause
| ClickNextAyah
| ClickPrevAyah
| ClickNextSurah
| ClickPrevSurah
| SelectSurah (n : Z)
| SelectEdition (e : string)
| ToggleContinuousPlay
| FetchSettled (i : nat) (o : Outcome)     (* the i-th fetch in flight is answered *)
| AudioCanPlay
| AudioEnded
| PlayRejected.

Fixpoint remove_nth {A : Type} (i : nat) (l : list A) : list A :=
  match l, i with
  | [], _ => []
  | _ :: t, O => t
  | x :: t, S j => x :: remove_nth j t
  end.

(** The handler of the latest render, applied to the current state. *)
Definition handler (e : Event) (s : State) : State :=
  match e with
  | ClickPlayPause => togglePlayPause s
  | ClickNextAyah => handleNextAyah s s
  | ClickPrevAyah => handlePrevAyah s s
  | ClickNextSurah => handleNextSurah s s
  | ClickPrevSurah => handlePrevSurah s s
  | SelectSurah n => setSelectedSurahNum n s
  | SelectEdition e => setSelectedEditionId e s
  | ToggleContinuousPlay => setContinuousPlay_with negb s
  | FetchSettled i o =>
      match nth_error (inflight s) i with
      | None => s
      | Some c =>
          fetchSurahData c (getSurahData (fc_edition c) o)
            (set_inflight (remove_nth i (inflight s)) s)
      end
  | AudioCanPlay => handleCanPlay s
  | AudioEnded => handleNextAyah s s
  | PlayRejected => setIsPlaying false s
  end.

Definition is_some {A : Type} (o : option A) : bool :=
  match o with Some _ => true | None => false end.

(** Dependency arrays, compared between two consecutive renders. *)
Definition selection_changed (prev next : State) : bool :=
  negb (selectedSurahNum prev =? selectedSurahNum next)
  || negb (String.eqb (selectedEditionId prev) (selectedEditionId next)).

Definition surahData_changed (prev next : State) : bool :=
  negb (Nat.eqb (surahDataGen prev) (surahDataGen next))
  || xorb (is_some (surahData prev)) (is_some (surahData next)).

(** [[surahData, currentAyahIndex, isPlaying, handleNextAyah]], where
    [handleNextAyah] changes with
    [[currentAyahIndex, surahData, continuousPlay, selectedSurahNum]]. *)
Definition audio_deps_changed (prev next : State) : bool :=
  surahData_changed prev next
  || negb (currentAyahIndex prev =? currentAyahIndex next)
  || negb (Bool.eqb (isPlaying prev) (isPlaying next))
  || negb (Bool.eqb (continuousPlay prev) (continuousPlay next))
  || negb (selectedSurahNum prev =? selectedSurahNum next).

(** The effects React runs after rendering [next], in the order the hook
    declares them. *)
Definition after_render (prev next : State) : State :=
  let s1 := if selection_changed prev next then surah_change_effect next else next in
  if audio_deps_changed prev next then audio_effect s1 else s1.

Definition dispatch (e : Event) (s : State) : State :=
  after_render s (handler e s).

(** The state after mounting: the first run of the surah-change effect has
    issued the fetch of surah 1; the audio effect found no bundle. *)
Definition initial : State :=
  {| selectedSurahNum := 1;
     selectedEditionId := "ar.alafasy";
     surahData := None;
     surahDataGen := 0;
     currentAyahIndex := 0;
     isPlaying := false;
     isLoading := true;
     error := None;
     continuousPlay := true;
     autoPlayOnLoadRef := false;
     audioRef := {| src := ""; calls := [] |};
     listening := false;
     inflight := [mkFetch 1 "ar.alafasy" false] |}.

Fixpoint run (es : list Event) (s : State) : State :=
  match es with
  | [] => s
  | e :: rest => run rest (dispatch e s)
  end.

(** ** Which events can occur *)

(** What the page shows decides which controls can be clicked:
    [error ? <ErrorDisplay/> : (isLoading && !surahData) ? <SkeletonLoader/> : controls]. *)
Definition controls_rendered (s : State) : bool :=
  negb (is_some (error s)) && negb (isLoading s && negb (is_some (surahData s))).

Definition isFirstOverallAyah (s : State) : bool :=
  (selectedSurahNum s =? 1) && (currentAyahIndex s =? 0).

Definition isLastOverallAyah (s : State) : bool :=
  (selectedSurahNum s =? TOTAL_SURAHS)
  && match surahData s with
     | None => true
     | Some d => currentAyahIndex s =? length_of d - 1
     end.

(** The reciter menu offers only what [getAudioEditions] keeps:
    identifiers that start with [ar.]. *)
Definition offered_edition (e : string) : bool := String.prefix "ar." e.

Definition enabled (s : State) (e : Event) : bool :=
  match e with
  | ClickPlayPause => controls_rendered s
  | ClickNextAyah => controls_rendered s && negb (isLastOverallAyah s && negb (continuousPlay s))
  | ClickPrevAyah => controls_rendered s && negb (isFirstOverallAyah s)
  | ClickNextSurah => controls_rendered s && negb (selectedSurahNum s =? TOTAL_SURAHS)
  | ClickPrevSurah => controls_rendered s && negb (selectedSurahNum s =? 1)
  | SelectSurah n => (1 <=? n) && (n <=? TOTAL_SURAHS)
  | SelectEdition e => offered_edition e
  | ToggleContinuousPlay => controls_rendered s
  | FetchSettled i _ => Nat.ltb i (List.length (inflight s))
  | AudioCanPlay => listening s
  | AudioEnded => listening s
  | PlayRejected => Nat.ltb 0 (plays (audioRef s))
  end.

(** States the hook can be in, whatever the order of events ... *)
Inductive reachable : State -> Prop :=
| reachable_initial : reachable initial
| reachable_dispatch s e : reachable s -> reachable (dispatch e s).

(** ... and those it is in when every event is one the page and the
    network can deliver at that moment. *)
Inductive ui_reachable : State -> Prop :=
| ui_initial : ui_reachable initial
| ui_dispatch s e : ui_reachable s -> enabled s e = true -> ui_reachable (dispatch e s).

(** ** Sample answers of the content provider, for the worked examples *)

Module Samples.

Definition raw (n : Z) (url txt : string) : RawAyah := mkRawAyah n n url txt.

(** A well-formed answer for the reciter [ar.alafasy] whose audio
    edition has the given ayahs. *)
Definition answer (surah : Z) (audio_ayahs : list RawAyah) : Outcome :=
  Responded
    {| ok := true;
       statusText := "OK";
       body := Some
         {| code := 200;
            data := DataArray
              [ mkEditionData "ar.alafasy" surah "Surah" audio_ayahs;
                mkEditionData "quran-uthmani" surah "Surah" audio_ayahs;
                mkEditionData "en.sahih" surah "Surah" audio_ayahs ] |};
       parse_message := "" |}.

Definition two_ayahs : list RawAyah := [raw 1 "a1.mp3" "t1"; raw 2 "a2.mp3" "t2"].
Definition three_ayahs : list RawAyah :=
  [raw 8 "b1.mp3" "u1"; raw 9 "b2.mp3" "u2"; raw 10 "b3.mp3" "u3"].

End Samples.

(** ** Notions used by the properties *)

(** [s] and [s'] agree on the cells that make up the selection, the
    bundle, the cursor and the play intent. *)
Definition same_cells (s s' : State) : Prop :=
  selectedSurahNum s' = selectedSurahNum s
  /\ selectedEditionId s' = selectedEditionId s
  /\ surahData s' = surahData s
  /\ surahDataGen s' = surahDataGen s
  /\ currentAyahIndex s' = currentAyahIndex s
  /\ isPlaying s' = isPlaying s
  /\ continuousPlay s' = continuousPlay s.

(** [es] can be delivered one after the other from [s]. *)
Fixpoint all_enabled (es : list Event) (s : State) : bool :=
  match es with
  | [] => true
  | e :: rest => enabled s e && all_enabled rest (dispatch e s)
  end.

(** The cursor is not negative and indexes the bundle, if one with at
    least one ayah is loaded. *)
Definition cursor_ok (s : State) : Prop :=
  0 <= currentAyahIndex s
  /\ forall d, surahData s = Some d -> ayahs d <> [] -> currentAyahIndex s < length_of d.

(** A fetch in flight is stale when the selection has moved on since it
    was issued. *)
Definition stale (c : FetchClosure) (s : State) : Prop :=
  fc_surah c <> selectedSurahNum s \/ fc_edition c <> selectedEditionId s.

(** Surah 2 is selected while the fetch of surah 1 is in flight; the fetch
    of surah 2 commits and the user steps to its second ayah. *)
Definition superseded : State :=
  run [SelectSurah 2;
       FetchSettled 1 (Samples.answer 2 Samples.three_ayahs);
       ClickNextAyah] initial.

(** The answers on which [getSurahData] throws: the transport fails, the
    status is not ok, the body is not JSON, the envelope has the wrong code
    or no array, or one of the three editions is not in the array. *)
Inductive bad_answer (editionId : string) : Outcome -> Prop :=
| bad_network m : bad_answer editionId (NetworkFailure m)
| bad_status res : ok res = false -> bad_answer editionId (Responded res)
| bad_body res : body res = None -> bad_answer editionId (Responded res)
| bad_code res j :
    body res = Some j -> code j <> 200 -> bad_answer editionId (Responded res)
| bad_data res j :
    body res = Some j -> (forall l, data j <> DataArray l) ->
    bad_answer editionId (Responded res)
| bad_editions res j l :
    body res = Some j -> data j = DataArray l ->
    find_edition editionId l = None
    \/ find_edition "quran-uthmani" l = None
    \/ find_edition "en.sahih" l = None ->
    bad_answer editionId (Responded res).

(** [advance] is the click on "next ayah" and the [ended] event of the
    audio element; [retreat] is the click on "previous ayah". *)
Definition advance (s : State) : State := after_render s (handleNextAyah s s).
Definition retreat (s : State) : State := after_render s (handlePrevAyah s s).

(** The three places where a handler sets the flag. *)
Inductive sets_flag (s : State) : Event -> Prop :=
| sets_flag_advance e d :
    e = ClickNextAyah \/ e = AudioEnded ->
    surahData s = Some d ->
    currentAyahIndex s < length_of d - 1 ->
    sets_flag s e
| sets_flag_retreat :
    0 < currentAyahIndex s ->
    sets_flag s ClickPrevAyah
| sets_flag_commit i o c d :
    nth_error (inflight s) i = Some c ->
    getSurahData (fc_edition c) o = Returned d ->
    fc_isPlaying c = true ->
    sets_flag s (FetchSettled i o).

(** The first bundle has committed and nothing is playing. *)
Definition paused_on_first_ayah : State :=
  run [FetchSettled 0 (Samples.answer 1 Samples.two_ayahs)] initial.

(** A selection the menus can produce: a chapter of the corpus and a
    reciter that is not the empty string. *)
Definition selection_ok (s : State) : Prop :=
  1 <= selectedSurahNum s <= TOTAL_SURAHS /\ selectedEditionId s <> "".

(** ** Seeking

    [handleSeek] parses the slider's value and assigns it to
    [audio.currentTime]; what the position becomes is decided by the audio
    element's setter, which belongs to the browser.  Times are JavaScript
    numbers; the number type, [parseFloat] and the setter are parameters. *)

Section Seek.

Variable Num : Type.
Variable parseFloat : string -> Num.

Record MediaClock := mkClock {
  currentTime : Num;
  duration : Num
}.

(** [audio.currentTime = t], as the element implements it. *)
Variable set_currentTime : MediaClock -> Num -> MediaClock.

(** Returns the element and the new [audioProgress]. *)
Definition handleSeek (value : string) (audio audioProgress : MediaClock)
  : MediaClock * MediaClock :=
  let audio' := set_currentTime audio (parseFloat value) in
  (audio', {| currentTime := currentTime audio'; duration := duration audioProgress |}).

End Seek.

Arguments currentTime {Num} _.
Arguments duration {Num} _.
Arguments handleSeek {Num} _ _ _ _ _.

(** ** Invariants of the player *)


(** The play intent is carried by the pending-autoplay flag or by a call
    of [play] that nothing has followed. *)
Definition intent_carried (s : State) : Prop :=
  autoPlayOnLoadRef s = true \/ hd_error (calls (audioRef s)) = Some Play.

(** [playing_unit s]: [isPlaying] is true and the cursor is on an ayah of
    the loaded bundle. *)
Definition playing_unit (s : State) : Prop :=
  isPlaying s = true
  /\ exists d a, surahData s = Some d /\ index (ayahs d) (currentAyahIndex s) = Some a.

(** Every assignment of [src] has its [load]. *)
Definition loads_balanced (s : State) : Prop :=
  loads (audioRef s) = assignments (audioRef s).

(** A closure of the surah-change effect that passed its guard with a
    chapter of the corpus. *)
Definition fetch_ok (c : FetchClosure) : Prop :=
  1 <= fc_surah c <= TOTAL_SURAHS /\ fc_edition c <> "".

(** What the page shows when no bundle is loaded: the error display or
    the skeleton. *)
Definition no_bundle_is_explained (s : State) : Prop :=
  surahData s = None -> is_some (error s) = true \/ isLoading s = true.

(** While [isLoading] is true a fetch is in flight. *)
Definition loading_has_fetch (s : State) : Prop :=
  isLoading s = true -> inflight s <> [].

(** ** Notions about the content provider *)

(** The editions an answer carries, if its envelope holds an array. *)
Definition answer_editions (o : Outcome) : list EditionData :=
  match o with
  | Responded res =>
      match body res with
      | Some j => match data j with DataArray l => l | _ => [] end
      | None => []
      end
  | NetworkFailure _ => []
  end.

(** [a[i]?.text || dflt] on the ayahs of an edition. *)
Definition text_at (l : list RawAyah) (i : nat) (dflt : string) : string :=
  match nth_error l i with
  | Some r => if String.eqb (raw_text r) "" then dflt else raw_text r
  | None => dflt
  end.

(** ** The menus: [getSurahs], [getAudioEditions] and the initial fetch *)

Module Catalog.

(** An element of the surah list. *)
Record SurahInfo := mkSurahInfo {
  si_number : Z;
  si_name : string;
  si_englishName : string;
  si_numberOfAyahs : Z;
  si_revelationType : string
}.

(** An element of the edition list. *)
Record EditionInfo := mkEditionInfo {
  ei_identifier : string;
  ei_format : string;
  ei_name : string;
  ei_englishName : string
}.

(** The JSON envelope of a list: [env_data = None] when [json.data] is not
    an array. *)
Record Envelope (A : Type) := mkEnvelope {
  env_code : Z;
  env_data : option (list A)
}.

Record ListResponse (A : Type) := mkListResponse {
  lr_ok : bool;
  lr_statusText : string;
  lr_body : option (Envelope A);      (* None: the body is not JSON *)
  lr_parse_message : string
}.

Inductive ListOutcome (A : Type) :=
| ListNetworkFailure (message : string)
| ListResponded (res : ListResponse A).

Inductive ListResult (A : Type) :=
| ListThrew (message : string)
| ListReturned (l : list A).

Arguments env_code {A} _.
Arguments env_data {A} _.
Arguments lr_ok {A} _.
Arguments lr_statusText {A} _.
Arguments lr_body {A} _.
Arguments lr_parse_message {A} _.
Arguments ListNetworkFailure {A} _.
Arguments ListResponded {A} _.
Arguments ListThrew {A} _.
Arguments ListReturned {A} _.

(** The part the two functions share: the status check, the parse and the
    check of the envelope. *)
Definition checked_list {A : Type} (not_ok invalid : string) (o : ListOutcome A)
  : ListResult A :=
  match o with
  | ListNetworkFailure m => ListThrew m
  | ListResponded res =>
      if negb (lr_ok res) then ListThrew (not_ok ++ lr_statusText res)%string
      else
        match lr_body res with
        | None => ListThrew (lr_parse_message res)
        | Some json =>
            match env_data json with
            | Some l => if negb (env_code json =? 200) then ListThrew invalid else ListReturned l
            | None => ListThrew invalid
            end
        end
  end.

Definition getSurahs (o : ListOutcome SurahInfo) : ListResult SurahInfo :=
  checked_list "Failed to fetch surahs: " "Invalid data structure received for surahs." o.

(** [e.identifier.startsWith('ar.') && e.format === 'audio'] *)
Definition reliable (e : EditionInfo) : bool :=
  String.prefix "ar." (ei_identifier e) && String.eqb (ei_format e) "audio".

Definition getAudioEditions (o : ListOutcome EditionInfo) : ListResult EditionInfo :=
  match checked_list "Failed to fetch audio editions: "
          "Invalid data structure received for editions." o with
  | ListReturned l => ListReturned (filter reliable l)
  | ListThrew m => ListThrew m
  end.

(** The two lists the menus are built from. *)
Record Menus := mkMenus {
  surahs : list SurahInfo;
  audioEditions : list EditionInfo
}.

(** The continuation of [fetchInitialData] after [Promise.all] settles.
    [Promise.all] rejects with the rejection that comes first;
    [editions_first] says which one that is when both requests fail. *)
Definition fetchInitialData (rs : ListResult SurahInfo) (re : ListResult EditionInfo)
    (editions_first : bool) (m : Menus) (s : State) : Menus * State :=
  match rs, re with
  | ListReturned surahsRes, ListReturned editionsRes =>
      ({| surahs := surahsRes; audioEditions := editionsRes |}, s)
  | ListThrew a, ListReturned _ => (m, setError (Some a) s)
  | ListReturned _, ListThrew b => (m, setError (Some b) s)
  | ListThrew a, ListThrew b =>
      (m, setError (Some (if editions_first then b else a)) s)
  end.

(** [editionOptions]: the values the reciter menu offers. *)
Definition editionOptions (m : Menus) : list string := map ei_identifier (audioEditions m).

End Catalog.

(** ** The content service of src/apiService.js: [fetchContentData] *)

Module ContentService.

(** An element of [json.data].  [identifier] is the member the function
    reads, [d.identifier]; it is [None] for an element that carries its
    identifier only inside [d.edition]. *)
Record ContentEdition := mkContentEdition {
  identifier : option string;
  edition : string;
  number : Z;
  name : string;
  englishName : string;
  englishNameTranslation : string;
  revelationType : string;
  numberOfAyahs : Z;
  ayahs : list RawAyah
}.

Inductive ContentData :=
| ContentArray (l : list ContentEdition)
| ContentString (s : string)
| ContentMissing.

Record ContentJson := mkContentJson { code : Z; data : ContentData }.

Record ContentResponse := mkContentResponse {
  ok : bool;
  body : option ContentJson;          (* None: the body is not JSON *)
  parse_message : string
}.

Inductive ContentOutcome :=
| ContentNetworkFailure (message : string)
| ContentResponded (res : ContentResponse).

(** What is thrown: an [Error] with a message, or the [TypeError] of
    calling [find] on something that is not an array. *)
Inductive Failure :=
| Message (m : string)
| TypeError.

(** [{ ...entityInfo, ayahs: combinedAyahs, edition: audioData.edition }] *)
Record Content := mkContent {
  c_number : Z;
  c_name : string;
  c_englishName : string;
  c_englishNameTranslation : string;
  c_revelationType : string;
  c_numberOfAyahs : Z;
  c_ayahs : list Ayah;
  c_edition : string
}.

Inductive ContentResult :=
| ContentThrew (f : Failure)
| ContentReturned (c : Content).

Definition truthy (d : ContentData) : bool :=
  match d with
  | ContentArray _ => true
  | ContentString s => negb (String.eqb s "")
  | ContentMissing => false
  end.

Definition to_string (d : ContentData) : string :=
  match d with
  | ContentArray l => String.concat "," (map (fun _ => "[object Object]") l)
  | ContentString s => s
  | ContentMissing => "undefined"
  end.

Definition or_else (d : ContentData) (dflt : string) : string :=
  if truthy d then to_string d else dflt.

(** [d.identifier === id] *)
Definition has_identifier (id : string) (d : ContentEdition) : bool :=
  match identifier d with
  | Some i => String.eqb i id
  | None => false
  end.

Definition NOT_AVAILABLE : string := "Not available.".

Definition text_or_unavailable (l : list RawAyah) (i : nat) : string :=
  match nth_error l i with
  | Some r => if String.eqb (raw_text r) "" then NOT_AVAILABLE else raw_text r
  | None => NOT_AVAILABLE
  end.

(** [audioData.ayahs.map((ayah, i) => ...)], with [i] counted from [i0]. *)
Fixpoint combine_from (i0 : nat) (txt trans : list RawAyah) (au : list RawAyah)
  : list Ayah :=
  match au with
  | [] => []
  | a :: rest =>
      {| Api.number := raw_number a;
         numberInSurah := raw_numberInSurah a;
         audio := raw_audio a;
         text := raw_text a;
         textArabic := text_or_unavailable txt i0;
         textEnglish := text_or_unavailable trans i0 |}
      :: combine_from (S i0) txt trans rest
  end.

(** [fetchContentData({ mode, number, audioEdition, textEdition })], as a
    function of what the network answers; [number_text] is [number] as
    the template literal renders it. *)
Definition fetchContentData (mode number_text audioEdition textEdition : string)
    (o : ContentOutcome) : ContentResult :=
  match o with
  | ContentNetworkFailure m => ContentThrew (Message m)
  | ContentResponded response =>
      match body response with
      | None => ContentThrew (Message (parse_message response))
      | Some json =>
          if negb (ok response) || negb (code json =? 200) then
            ContentThrew
              (Message (or_else (data json)
                          ("Could not fetch data for " ++ mode ++ " " ++ number_text ++ ".")%string))
          else
            match data json with
            | ContentArray l =>
                match find (has_identifier audioEdition) l,
                      find (has_identifier "quran-uthmani") l,
                      find (has_identifier textEdition) l with
                | Some audioData, Some textData, Some translationData =>
                    ContentReturned
                      {| c_number := number audioData;
                         c_name := name audioData;
                         c_englishName := englishName audioData;
                         c_englishNameTranslation := englishNameTranslation audioData;
                         c_revelationType := revelationType audioData;
                         c_numberOfAyahs := numberOfAyahs audioData;
                         c_ayahs := combine_from 0 (ayahs textData) (ayahs translationData)
                                      (ayahs audioData);
                         c_edition := edition audioData |}
                | _, _, _ =>
                    ContentThrew
                      (Message "One or more required editions are missing for this selection.")
                end
            | _ => ContentThrew TypeError
            end
      end
  end.

End ContentService.

(** ** Font sizes: [handleFontSizeChange]

    The sizes are JavaScript numbers in rem.  The hook starts from 2.25 and
    1.125, the bounds are 1.5, 4.0, 0.875 and 2.0, and the buttons pass
    0.125 and -0.125: every value is a multiple of 0.125, which doubles
    hold and add exactly, so a size is modelled by the integer number of
    eighths of a rem. *)

Record FontSizes := mkFontSizes {
  arabicFontSize : Z;
  englishFontSize : Z
}.

Definition initial_fonts : FontSizes :=
  {| arabicFontSize := 18; englishFontSize := 9 |}.

Definition handleFontSizeChange (type : string) (change : Z) (f : FontSizes) : FontSizes :=
  let is_arabic := String.eqb type "arabic" in
  let min := if is_arabic then 12 else 7 in
  let max := if is_arabic then 32 else 16 in
  if is_arabic
  then {| arabicFontSize := Z.max min (Z.min max (arabicFontSize f + change));
          englishFontSize := englishFontSize f |}
  else {| arabicFontSize := arabicFontSize f;
          englishFontSize := Z.max min (Z.min max (englishFontSize f + change)) |}.

(** A sequence of calls, oldest first. *)
Fixpoint font_changes (cs : list (string * Z)) (f : FontSizes) : FontSizes :=
  match cs with
  | [] => f
  | (type, change) :: rest => font_changes rest (handleFontSizeChange type change f)
  end.

Definition fonts_in_range (f : FontSizes) : Prop :=
  12 <= arabicFontSize f <= 32 /\ 7 <= englishFontSize f <= 16.

(** The size, and the bounds, that [handleFontSizeChange] works on for a
    given [type]: every [type] other than ["arabic"] is the English one. *)
Definition font_size (type : string) (f : FontSizes) : Z :=
  if String.eqb type "arabic" then arabicFontSize f else englishFontSize f.
Definition font_min (type : string) : Z := if String.eqb type "arabic" then 12 else 7.
Definition font_max (type : string) : Z := if String.eqb type "arabic" then 32 else 16.

(** The list an answer carries, if it is one [checked_list] accepts. *)
Definition listed {A : Type} (o : Catalog.ListOutcome A) : option (list A) :=
  match o with
  | Catalog.ListResponded res =>
      if Catalog.lr_ok res then
        match Catalog.lr_body res with
        | Some json =>
            if Catalog.env_code json =? 200 then Catalog.env_data json else None
        | None => None
        end
      else None
  | Catalog.ListNetworkFailure _ => None
  end.

(** The array an answer to [fetchContentData] carries, if the status and
    the code let the function reach it. *)
Definition content_listed (o : ContentService.ContentOutcome)
  : option (list ContentService.ContentEdition) :=
  match o with
  | ContentService.ContentResponded res =>
      match ContentService.body res with
      | Some json =>
          if ContentService.ok res && (ContentService.code json =? 200) then
            match ContentService.data json with
            | ContentService.ContentArray l => Some l
            | _ => None
            end
          else None
      | None => None
      end
  | ContentService.ContentNetworkFailure _ => None
  end.

(** * Properties *)

(** ** What the effects leave alone *)

(** The effects never write the cells that make up the cursor, the bundle
    and the play intent: they write [isLoading], [error], the ref, the
    audio element and the list of fetches only. *)

Lemma same_cells_refl s : same_cells s s.
Proof. repeat split. Qed.

Lemma same_cells_trans s1 s2 s3 :
  same_cells s1 s2 -> same_cells s2 s3 -> same_cells s1 s3.
Proof.
  unfold same_cells; intros (a1 & a2 & a3 & a4 & a5 & a6 & a7) (b1 & b2 & b3 & b4 & b5 & b6 & b7).
  repeat split; congruence.
Qed.

Lemma audio_effect_cells s : same_cells s (audio_effect s).
Proof.
  unfold audio_effect.
  destruct (surahData s) as [d|] eqn:Hd; [|repeat split].
  destruct (index (ayahs d) (currentAyahIndex s)) as [a|]; [|repeat split].
  destruct (negb (String.eqb (src (audioRef s)) (audio a))), (isPlaying s) eqn:Hp;
    repeat split; cbn; auto.
Qed.

Lemma surah_change_effect_cells s : same_cells s (surah_change_effect s).
Proof.
  unfold surah_change_effect.
  destruct ((selectedSurahNum s =? 0) || String.eqb (selectedEditionId s) "");
    repeat split.
Qed.

Lemma after_render_cells prev next : same_cells next (after_render prev next).
Proof.
  unfold after_render.
  destruct (selection_changed prev next), (audio_deps_changed prev next);
    eauto using same_cells_refl, same_cells_trans, audio_effect_cells, surah_change_effect_cells.
Qed.

Lemma dispatch_surahData e s : surahData (dispatch e s) = surahData (handler e s).
Proof. apply (after_render_cells s (handler e s)). Qed.

Lemma dispatch_currentAyahIndex e s :
  currentAyahIndex (dispatch e s) = currentAyahIndex (handler e s).
Proof. apply (after_render_cells s (handler e s)). Qed.

Lemma dispatch_selectedSurahNum e s :
  selectedSurahNum (dispatch e s) = selectedSurahNum (handler e s).
Proof. apply (after_render_cells s (handler e s)). Qed.

Lemma dispatch_selectedEditionId e s :
  selectedEditionId (dispatch e s) = selectedEditionId (handler e s).
Proof. apply (after_render_cells s (handler e s)). Qed.

Lemma dispatch_isPlaying e s : isPlaying (dispatch e s) = isPlaying (handler e s).
Proof. apply (after_render_cells s (handler e s)). Qed.

(** ** Reachability *)

Lemma ui_reachable_reachable s : ui_reachable s -> reachable s.
Proof. induction 1; constructor; assumption. Qed.

Lemma reachable_run es : forall s, reachable s -> reachable (run es s).
Proof.
  induction es as [|e es IH]; intros s Hs; cbn; [assumption|].
  apply IH. constructor. assumption.
Qed.

Lemma ui_reachable_run es :
  forall s, ui_reachable s -> all_enabled es s = true -> ui_reachable (run es s).
Proof.
  induction es as [|e es IH]; intros s Hs Hen; cbn in *; [assumption|].
  apply andb_true_iff in Hen as [He Hrest].
  apply IH; [constructor|]; assumption.
Qed.

(** ** The cursor stays inside a non-empty bundle *)

Lemma length_of_pos d : ayahs d <> [] -> 0 < length_of d.
Proof.
  unfold length_of. destruct (ayahs d); [congruence|]. cbn [List.length]. lia.
Qed.

Lemma fetchSurahData_cursor_ok c r s :
  cursor_ok s -> cursor_ok (fetchSurahData c r s).
Proof.
  unfold fetchSurahData, cursor_ok. intros [Hlo Hhi].
  destruct r as [m|data]; [|destruct (fc_isPlaying c)]; cbn.
  - split; [assumption | discriminate].
  - split; [lia|]. intros d [= <-]. apply length_of_pos.
  - split; [lia|]. intros d [= <-]. apply length_of_pos.
Qed.

Lemma handleNextAyah_cursor_ok s : cursor_ok s -> cursor_ok (handleNextAyah s s).
Proof.
  unfold handleNextAyah, cursor_ok. intros [Hlo Hhi].
  destruct (surahData s) as [d|] eqn:Hd; [|rewrite Hd; auto].
  destruct (currentAyahIndex s >=? length_of d - 1) eqn:Hlast.
  - destruct (continuousPlay s && (selectedSurahNum s <? TOTAL_SURAHS)); cbn;
      rewrite Hd; auto.
  - cbn. rewrite Hd. split; [lia|]. intros d' [= <-] _.
    rewrite Z.geb_leb in Hlast. apply Z.leb_gt in Hlast. lia.
Qed.

Lemma handlePrevAyah_cursor_ok s : cursor_ok s -> cursor_ok (handlePrevAyah s s).
Proof.
  unfold handlePrevAyah, cursor_ok. intros [Hlo Hhi].
  destruct (currentAyahIndex s >? 0) eqn:Hpos.
  - cbn. apply Z.gtb_lt in Hpos. split; [lia|].
    intros d Hd Hne. specialize (Hhi d Hd Hne). lia.
  - destruct (selectedSurahNum s >? 1); cbn; auto.
Qed.

Lemma handler_cursor_ok e s : cursor_ok s -> cursor_ok (handler e s).
Proof.
  intros Hs. destruct e; cbn [handler];
    auto using handleNextAyah_cursor_ok, handlePrevAyah_cursor_ok;
    try exact Hs.
  - unfold handleNextSurah. destruct (selectedSurahNum s <? TOTAL_SURAHS); exact Hs.
  - unfold handlePrevSurah. destruct (selectedSurahNum s >? 1); exact Hs.
  - destruct (nth_error (inflight s) i); [|exact Hs].
    apply fetchSurahData_cursor_ok. exact Hs.
  - unfold handleCanPlay. destruct (autoPlayOnLoadRef s); exact Hs.
Qed.

Lemma dispatch_cursor_ok e s : cursor_ok s -> cursor_ok (dispatch e s).
Proof.
  intros Hs. apply (handler_cursor_ok e) in Hs.
  unfold cursor_ok in *.
  rewrite dispatch_currentAyahIndex, dispatch_surahData. exact Hs.
Qed.

Lemma reachable_cursor_ok s : reachable s -> cursor_ok s.
Proof.
  induction 1 as [|s e _ IH].
  - split; [cbn; lia | discriminate].
  - apply dispatch_cursor_ok, IH.
Qed.

Lemma index_in_range {A : Type} (l : list A) (i : Z) :
  0 <= i < Z.of_nat (List.length l) -> exists a, index l i = Some a.
Proof.
  intros [Hlo Hhi]. unfold index.
  destruct (i <? 0) eqn:Hneg; [apply Z.ltb_lt in Hneg; lia|].
  destruct (nth_error l (Z.to_nat i)) as [a|] eqn:Hn; [eauto|].
  apply nth_error_None in Hn. lia.
Qed.

(** C1 (as amended).  In every state the hook can reach, by any sequence of
    clicks, selections, audio events and settled fetches, a loaded bundle
    that has at least one ayah is indexed by the cursor:
    [0 <= currentAyahIndex <= ayahs.length - 1], and
    [surahData.ayahs[currentAyahIndex]] is an ayah. *)
Theorem cursor_in_range_of_nonempty_bundle s d :
  reachable s ->
  surahData s = Some d ->
  ayahs d <> [] ->
  0 <= currentAyahIndex s <= length_of d - 1
  /\ exists a, index (ayahs d) (currentAyahIndex s) = Some a.
Proof.
  intros Hr Hd Hne.
  destruct (reachable_cursor_ok s Hr) as [Hlo Hhi].
  specialize (Hhi d Hd Hne).
  split; [lia|]. apply index_in_range. unfold length_of in Hhi. lia.
Qed.

Lemma cursor_in_range_of_nonempty_bundle_witness :
  let s := run [FetchSettled 0 (Samples.answer 1 Samples.two_ayahs); ClickNextAyah] initial in
  exists d,
    reachable s /\ surahData s = Some d /\ ayahs d <> []
    /\ 0 <= currentAyahIndex s <= length_of d - 1
    /\ exists a, index (ayahs d) (currentAyahIndex s) = Some a.
Proof.
  eexists.
  assert (Hr : reachable (run [FetchSettled 0 (Samples.answer 1 Samples.two_ayahs); ClickNextAyah] initial))
    by (apply reachable_run; constructor).
  split; [exact Hr|].
  split; [vm_compute; reflexivity|].
  split; [discriminate|].
  apply (cursor_in_range_of_nonempty_bundle _ _ Hr); [vm_compute; reflexivity | discriminate].
Defined.

(** C1 (as stated) fails when the service answers with an audio edition
    that has no ayahs: [getSurahData] returns the bundle, the fetch
    commits it with [currentAyahIndex = 0], and [0] is not in [[0, -1]]. *)
Lemma cursor_out_of_range_on_empty_bundle :
  let s := run [FetchSettled 0 (Samples.answer 1 [])] initial in
  exists d,
    ui_reachable s /\ reachable s /\ surahData s = Some d
    /\ ~ (0 <= currentAyahIndex s <= length_of d - 1)
    /\ index (ayahs d) (currentAyahIndex s) = None.
Proof.
  eexists.
  assert (Hu : ui_reachable (run [FetchSettled 0 (Samples.answer 1 [])] initial))
    by (apply ui_reachable_run; [constructor | reflexivity]).
  split; [exact Hu|].
  split; [apply ui_reachable_reachable, Hu|].
  split; [vm_compute; reflexivity|].
  split; [vm_compute; intros [_ H]; apply H; reflexivity | reflexivity].
Qed.

(** ** Settled fetches *)

(** The audio effect writes the ref, the audio element and [listening]
    only. *)
Lemma audio_effect_io s :
  isLoading (audio_effect s) = isLoading s
  /\ error (audio_effect s) = error s
  /\ inflight (audio_effect s) = inflight s.
Proof.
  unfold audio_effect.
  destruct (surahData s) as [d|]; [|repeat split].
  destruct (index (ayahs d) (currentAyahIndex s)) as [a|]; [|repeat split].
  destruct (negb (String.eqb (src (audioRef s)) (audio a))), (isPlaying s);
    repeat split.
Qed.

(** No effect ever clears the pending-autoplay flag. *)
Lemma audio_effect_keeps_flag s :
  autoPlayOnLoadRef s = true -> autoPlayOnLoadRef (audio_effect s) = true.
Proof.
  unfold audio_effect. intros Hf.
  destruct (surahData s) as [d|]; [|exact Hf].
  destruct (index (ayahs d) (currentAyahIndex s)) as [a|]; [|exact Hf].
  destruct (negb (String.eqb (src (audioRef s)) (audio a))), (isPlaying s);
    cbn; auto.
Qed.

Lemma surah_change_effect_flag s :
  autoPlayOnLoadRef (surah_change_effect s) = autoPlayOnLoadRef s.
Proof.
  unfold surah_change_effect.
  destruct ((selectedSurahNum s =? 0) || String.eqb (selectedEditionId s) "");
    reflexivity.
Qed.

Lemma after_render_keeps_flag prev next :
  autoPlayOnLoadRef next = true -> autoPlayOnLoadRef (after_render prev next) = true.
Proof.
  unfold after_render. intros Hf.
  assert (Hs : autoPlayOnLoadRef
                 (if selection_changed prev next then surah_change_effect next else next) = true)
    by (destruct (selection_changed prev next); [rewrite surah_change_effect_flag|]; exact Hf).
  destruct (audio_deps_changed prev next); auto using audio_effect_keeps_flag.
Qed.

(** A render that leaves the selection alone does not run the
    surah-change effect. *)
Lemma after_render_same_selection prev next :
  selectedSurahNum next = selectedSurahNum prev ->
  selectedEditionId next = selectedEditionId prev ->
  after_render prev next
  = if audio_deps_changed prev next then audio_effect next else next.
Proof.
  intros Hn He. unfold after_render, selection_changed.
  rewrite Hn, He, Z.eqb_refl, String.eqb_refl. reflexivity.
Qed.

Lemma fetchSurahData_selection c r s :
  selectedSurahNum (fetchSurahData c r s) = selectedSurahNum s
  /\ selectedEditionId (fetchSurahData c r s) = selectedEditionId s.
Proof.
  unfold fetchSurahData.
  destruct r as [m|d]; [|destruct (fc_isPlaying c)]; split; reflexivity.
Qed.

Lemma after_render_io prev next :
  selectedSurahNum next = selectedSurahNum prev ->
  selectedEditionId next = selectedEditionId prev ->
  isLoading (after_render prev next) = isLoading next
  /\ error (after_render prev next) = error next
  /\ inflight (after_render prev next) = inflight next.
Proof.
  intros Hn He. rewrite (after_render_same_selection _ _ Hn He).
  destruct (audio_deps_changed prev next); [apply audio_effect_io | repeat split].
Qed.

(** What a settled fetch does to the state, whichever selection it was
    issued for. *)
Lemma dispatch_FetchSettled s i o c :
  nth_error (inflight s) i = Some c ->
  let s' := dispatch (FetchSettled i o) s in
  selectedSurahNum s' = selectedSurahNum s
  /\ selectedEditionId s' = selectedEditionId s
  /\ isLoading s' = false
  /\ inflight s' = remove_nth i (inflight s)
  /\ match getSurahData (fc_edition c) o with
     | Returned d =>
         surahData s' = Some d
         /\ currentAyahIndex s' = 0
         /\ isPlaying s' = isPlaying s
         /\ error s' = error s
         /\ (fc_isPlaying c = true -> autoPlayOnLoadRef s' = true)
     | Threw m =>
         surahData s' = None
         /\ currentAyahIndex s' = currentAyahIndex s
         /\ isPlaying s' = false
         /\ error s' = Some m
     end.
Proof.
  intros Hc s'. subst s'. unfold dispatch.
  set (next := handler (FetchSettled i o) s).
  assert (Hnext : next = fetchSurahData c (getSurahData (fc_edition c) o)
                           (set_inflight (remove_nth i (inflight s)) s))
    by (subst next; cbn [handler]; rewrite Hc; reflexivity).
  destruct (fetchSurahData_selection c (getSurahData (fc_edition c) o)
              (set_inflight (remove_nth i (inflight s)) s)) as [Hn He].
  rewrite <- Hnext in Hn, He. cbn in Hn, He.
  destruct (after_render_cells s next) as (Cn & Ce & Cd & _ & Ci & Cp & _).
  destruct (after_render_io s next Hn He) as (Il & Ie & Ii).
  pose proof (after_render_keeps_flag s next) as Hflag.
  rewrite Cn, Ce, Cd, Ci, Cp, Il, Ie, Ii.
  rewrite Hnext in Hflag |- *. clear Hnext next Cn Ce Cd Ci Cp Il Ie Ii Hn He.
  unfold fetchSurahData in *.
  destruct (getSurahData (fc_edition c) o) as [m|d].
  - repeat split.
  - destruct (fc_isPlaying c); repeat split; auto; discriminate.
Qed.

(** C2 (as amended).  The continuation of [fetchSurahData] never compares
    the selection it was issued for with the current one.  A stale fetch
    that settles is applied like any other: on success the bundle is
    replaced by the fetched one and the cursor is reset to 0 (and the
    pending-autoplay flag is set if [isPlaying] was true when the fetch was
    issued); on failure the bundle is cleared, [isPlaying] becomes false
    and the message is stored.  Only the selection itself is left as it
    was. *)
Theorem stale_fetch_is_applied s i o c :
  nth_error (inflight s) i = Some c ->
  stale c s ->
  let s' := dispatch (FetchSettled i o) s in
  selectedSurahNum s' = selectedSurahNum s
  /\ selectedEditionId s' = selectedEditionId s
  /\ match getSurahData (fc_edition c) o with
     | Returned d =>
         surahData s' = Some d
         /\ currentAyahIndex s' = 0
         /\ (fc_isPlaying c = true -> autoPlayOnLoadRef s' = true)
     | Threw m =>
         surahData s' = None /\ isPlaying s' = false /\ error s' = Some m
     end.
Proof.
  intros Hc _ s'.
  destruct (@dispatch_FetchSettled s i o c Hc) as (Hn & He & _ & _ & Hr).
  fold s' in Hn, He, Hr.
  split; [exact Hn|]. split; [exact He|].
  destruct (getSurahData (fc_edition c) o).
  - destruct Hr as (? & _ & ? & ?). auto.
  - destruct Hr as (? & ? & _ & _ & ?). auto.
Qed.

Lemma stale_fetch_is_applied_witness :
  let c := mkFetch 1 "ar.alafasy" false in
  let o := Samples.answer 1 Samples.two_ayahs in
  let s' := dispatch (FetchSettled 0 o) superseded in
  nth_error (inflight superseded) 0 = Some c
  /\ stale c superseded
  /\ selectedSurahNum s' = selectedSurahNum superseded
  /\ selectedEditionId s' = selectedEditionId superseded
  /\ match getSurahData (fc_edition c) o with
     | Returned d =>
         surahData s' = Some d
         /\ currentAyahIndex s' = 0
         /\ (fc_isPlaying c = true -> autoPlayOnLoadRef s' = true)
     | Threw m =>
         surahData s' = None /\ isPlaying s' = false /\ error s' = Some m
     end.
Proof.
  intros c o s'.
  assert (Hc : nth_error (inflight superseded) 0 = Some c) by reflexivity.
  assert (Hs : stale c superseded) by (left; vm_compute; discriminate).
  split; [exact Hc|]. split; [exact Hs|].
  exact (@stale_fetch_is_applied superseded 0 o c Hc Hs).
Defined.

(** C2 (as stated) fails: in [superseded] the selection is surah 2, its
    bundle is loaded and the cursor is on index 1; the answer to the older
    fetch of surah 1 then replaces the bundle and resets the cursor. *)
Lemma stale_fetch_overwrites_bundle_and_cursor :
  let c := mkFetch 1 "ar.alafasy" false in
  let e := FetchSettled 0 (Samples.answer 1 Samples.two_ayahs) in
  ui_reachable superseded
  /\ enabled superseded e = true
  /\ nth_error (inflight superseded) 0 = Some c
  /\ stale c superseded
  /\ surahData (dispatch e superseded) <> surahData superseded
  /\ currentAyahIndex superseded = 1
  /\ currentAyahIndex (dispatch e superseded) = 0.
Proof.
  cbv zeta.
  split; [apply ui_reachable_run; [constructor | reflexivity]|].
  split; [reflexivity|].
  split; [reflexivity|].
  split; [left; vm_compute; discriminate|].
  split; [vm_compute; discriminate|].
  split; reflexivity.
Qed.

(** ** Failed fetches *)

Lemma getSurahData_throws_iff editionId o :
  (exists m, getSurahData editionId o = Threw m) <-> bad_answer editionId o.
Proof.
  split.
  - intros [m Hm]. destruct o as [m'|res]; [constructor|].
    cbn in Hm. destruct (ok res) eqn:Hok; cbn in Hm; [|apply bad_status; exact Hok].
    destruct (body res) as [j|] eqn:Hb; [|apply bad_body; exact Hb].
    destruct (data j) as [l|str|] eqn:Hdata;
      try (apply (bad_data _ _ _ Hb); intros l'; rewrite Hdata; discriminate).
    destruct (code j =? 200) eqn:Hcode; cbn in Hm;
      [|apply (bad_code _ _ _ Hb); apply Z.eqb_neq; exact Hcode].
    apply (bad_editions _ _ _ _ Hb Hdata).
    destruct (find_edition editionId l); [|auto].
    destruct (find_edition "quran-uthmani" l); [|auto].
    destruct (find_edition "en.sahih" l); [discriminate|auto].
  - intros Hbad. destruct Hbad as [m|res Hok|res Hb|res j Hb Hcode|res j Hb Hdata|res j l Hb Hdata Hfind];
      cbn.
    + eauto.
    + rewrite Hok. cbn. eauto.
    + destruct (ok res); cbn; [rewrite Hb|]; eauto.
    + destruct (ok res); cbn; [rewrite Hb|]; eauto.
      apply Z.eqb_neq in Hcode. rewrite Hcode. cbn.
      destruct (data j); eauto.
    + destruct (ok res); cbn; [rewrite Hb|]; eauto.
      destruct (data j) as [l| |] eqn:Hd; eauto. exfalso. apply (Hdata l). reflexivity.
    + destruct (ok res); cbn; [rewrite Hb, Hdata|]; eauto.
      destruct (negb (code j =? 200)); eauto.
      destruct Hfind as [H|[H|H]]; rewrite H; eauto;
        destruct (find_edition editionId l); eauto;
        destruct (find_edition "quran-uthmani" l); eauto.
Qed.

(** C10.  When the fetch of a surah fails (the transport fails or the
    answer is malformed), [getSurahData] throws, and the catch branch of
    [fetchSurahData] stores the message in [error], sets [isPlaying] to
    false and sets [surahData] to null; [isLoading] ends false. *)
Theorem failed_fetch_sets_error_and_stops s i o c :
  nth_error (inflight s) i = Some c ->
  bad_answer (fc_edition c) o ->
  let s' := dispatch (FetchSettled i o) s in
  exists m,
    getSurahData (fc_edition c) o = Threw m
    /\ error s' = Some m
    /\ isPlaying s' = false
    /\ surahData s' = None
    /\ isLoading s' = false.
Proof.
  intros Hc Hbad s'.
  apply getSurahData_throws_iff in Hbad as [m Hm].
  destruct (@dispatch_FetchSettled s i o c Hc) as (_ & _ & Hl & _ & Hr).
  fold s' in Hl, Hr. rewrite Hm in Hr. destruct Hr as (Hd & _ & Hp & He).
  exists m. auto.
Qed.

Lemma failed_fetch_sets_error_and_stops_witness :
  let s := run [FetchSettled 0 (Samples.answer 1 Samples.two_ayahs);
                ClickPlayPause; SelectSurah 2] initial in
  let o := Responded {| ok := false; statusText := "Not Found";
                        body := Some {| code := 404; data := DataString "Surah not found" |};
                        parse_message := "" |} in
  let c := mkFetch 2 "ar.alafasy" true in
  let s' := dispatch (FetchSettled 0 o) s in
  nth_error (inflight s) 0 = Some c
  /\ bad_answer (fc_edition c) o
  /\ isPlaying s = true
  /\ exists m,
       getSurahData (fc_edition c) o = Threw m
       /\ error s' = Some m
       /\ isPlaying s' = false
       /\ surahData s' = None
       /\ isLoading s' = false.
Proof.
  intros s o c s'.
  assert (Hc : nth_error (inflight s) 0 = Some c) by reflexivity.
  assert (Hbad : bad_answer (fc_edition c) o) by (apply bad_status; reflexivity).
  split; [exact Hc|]. split; [exact Hbad|]. split; [reflexivity|].
  exact (@failed_fetch_sets_error_and_stops s 0 o c Hc Hbad).
Defined.

(** ** Navigation across chapter boundaries *)

Lemma dispatch_ClickNextAyah s : dispatch ClickNextAyah s = advance s.
Proof. reflexivity. Qed.


Lemma dispatch_ClickPrevAyah s : dispatch ClickPrevAyah s = retreat s.
Proof. reflexivity. Qed.

(** A render in which no dependency changed runs no effect. *)
Lemma after_render_quiet prev next : same_cells prev next -> after_render prev next = next.
Proof.
  intros (Hn & He & Hd & Hg & Hi & Hp & Hc).
  unfold after_render, selection_changed, audio_deps_changed, surahData_changed.
  rewrite Hn, He, Hd, Hg, Hi, Hp, Hc.
  rewrite !Z.eqb_refl, String.eqb_refl, Nat.eqb_refl, !Bool.eqb_reflx, xorb_nilpotent.
  reflexivity.
Qed.

(** Changing the chapter number issues the fetch of the new chapter, in a
    closure that holds the [isPlaying] of that render. *)
Lemma after_render_chapter_request s f :
  let n := f (selectedSurahNum s) in
  n <> selectedSurahNum s ->
  n <> 0 ->
  selectedEditionId s <> "" ->
  let s1 := after_render s (setSelectedSurahNum_with f s) in
  selectedSurahNum s1 = n
  /\ selectedEditionId s1 = selectedEditionId s
  /\ isPlaying s1 = isPlaying s
  /\ surahData s1 = surahData s
  /\ currentAyahIndex s1 = currentAyahIndex s
  /\ inflight s1 = (inflight s ++ [mkFetch n (selectedEditionId s) (isPlaying s)])%list.
Proof.
  intros n Hne H0 Hed s1.
  destruct (after_render_cells s (setSelectedSurahNum_with f s))
    as (Cn & Ce & Cd & _ & Ci & Cp & _).
  fold s1 in Cn, Ce, Cd, Ci, Cp. cbn in Cn, Ce, Cd, Ci, Cp.
  repeat (split; [assumption|]).
  subst s1. unfold after_render, selection_changed. cbn.
  assert (Hsel : (selectedSurahNum s =? f (selectedSurahNum s)) = false)
    by (apply Z.eqb_neq; intros H; apply Hne; symmetry; exact H).
  rewrite Hsel. cbn.
  unfold surah_change_effect. cbn.
  apply Z.eqb_neq in H0. fold n. rewrite H0.
  apply String.eqb_neq in Hed. rewrite Hed. cbn.
  match goal with
  | |- inflight (if ?b then audio_effect ?x else ?x) = _ =>
      destruct b; [destruct (audio_effect_io x) as (_ & _ & ->)|]; reflexivity
  end.
Qed.


Lemma audio_effect_src s d a :
  surahData s = Some d ->
  index (ayahs d) (currentAyahIndex s) = Some a ->
  src (audioRef (audio_effect s)) = audio a.
Proof.
  intros Hd Ha. unfold audio_effect. rewrite Hd, Ha.
  destruct (String.eqb (src (audioRef s)) (audio a)) eqn:Hsrc; cbn.
  - apply String.eqb_eq in Hsrc. destruct (isPlaying s); exact Hsrc.
  - destruct (isPlaying s); reflexivity.
Qed.

Lemma dispatch_AudioCanPlay s : dispatch AudioCanPlay s = handleCanPlay s.
Proof.
  unfold dispatch. cbn [handler]. apply after_render_quiet.
  unfold handleCanPlay. destruct (autoPlayOnLoadRef s); repeat split.
Qed.




Lemma audio_effect_paused_flag s :
  isPlaying s = false -> autoPlayOnLoadRef (audio_effect s) = autoPlayOnLoadRef s.
Proof.
  intros Hp. unfold audio_effect. rewrite Hp.
  destruct (surahData s) as [d|]; [|reflexivity].
  destruct (index (ayahs d) (currentAyahIndex s)) as [a|]; [|reflexivity].
  destruct (negb (String.eqb (src (audioRef s)) (audio a))); reflexivity.
Qed.

(** C4.  At the last ayah of the loaded chapter, when continuous play is
    off or the chapter is the last one, [advance] sets [isPlaying] to false
    and leaves the selection, the cursor, the bundle, the pending-autoplay
    flag and the fetches in flight as they were. *)
Theorem advance_at_corpus_end_stops s d :
  surahData s = Some d ->
  length_of d - 1 <= currentAyahIndex s ->
  continuousPlay s = false \/ TOTAL_SURAHS <= selectedSurahNum s ->
  let s' := advance s in
  isPlaying s' = false
  /\ selectedSurahNum s' = selectedSurahNum s
  /\ selectedEditionId s' = selectedEditionId s
  /\ currentAyahIndex s' = currentAyahIndex s
  /\ surahData s' = surahData s
  /\ continuousPlay s' = continuousPlay s
  /\ autoPlayOnLoadRef s' = autoPlayOnLoadRef s
  /\ inflight s' = inflight s.
Proof.
  intros Hd Hlast Hstop s'.
  assert (Hadv : handleNextAyah s s = setIsPlaying false s).
  { unfold handleNextAyah. rewrite Hd.
    replace (currentAyahIndex s >=? length_of d - 1) with true
      by (symmetry; rewrite Z.geb_leb; apply Z.leb_le; exact Hlast).
    destruct Hstop as [Hc|Hn].
    - rewrite Hc. reflexivity.
    - replace (selectedSurahNum s <? TOTAL_SURAHS) with false
        by (symmetry; apply Z.ltb_ge; exact Hn).
      rewrite andb_false_r. reflexivity. }
  subst s'. unfold advance. rewrite Hadv.
  destruct (after_render_cells s (setIsPlaying false s)) as (Cn & Ce & Cd & _ & Ci & Cp & Cc).
  destruct (after_render_io s (setIsPlaying false s) eq_refl eq_refl) as (_ & _ & Ii).
  repeat (split; [assumption|]).
  split; [|exact Ii].
  rewrite after_render_same_selection by reflexivity.
  destruct (audio_deps_changed s (setIsPlaying false s)); [|reflexivity].
  rewrite audio_effect_paused_flag; reflexivity.
Qed.

Lemma advance_at_corpus_end_stops_witness :
  let s := run [SelectSurah 114;
                FetchSettled 1 (Samples.answer 114 Samples.two_ayahs);
                ToggleContinuousPlay; ClickPlayPause; ClickNextAyah; AudioCanPlay] initial in
  let s' := advance s in
  continuousPlay s = false
  /\ selectedSurahNum s = TOTAL_SURAHS
  /\ currentAyahIndex s = 1
  /\ isPlaying s = true
  /\ isPlaying s' = false
  /\ selectedSurahNum s' = selectedSurahNum s
  /\ selectedEditionId s' = selectedEditionId s
  /\ currentAyahIndex s' = currentAyahIndex s
  /\ surahData s' = surahData s
  /\ continuousPlay s' = continuousPlay s
  /\ autoPlayOnLoadRef s' = autoPlayOnLoadRef s
  /\ inflight s' = inflight s.
Proof.
  intros s s'.
  assert (Hd : surahData s = Some (mkSurahData "ar.alafasy" 114 "Surah"
                 [mkAyah 1 1 "a1.mp3" "t1" "t1" "t1"; mkAyah 2 2 "a2.mp3" "t2" "t2" "t2"]))
    by (vm_compute; reflexivity).
  assert (Hlast : length_of (mkSurahData "ar.alafasy" 114 "Surah"
                    [mkAyah 1 1 "a1.mp3" "t1" "t1" "t1"; mkAyah 2 2 "a2.mp3" "t2" "t2" "t2"]) - 1
                  <= currentAyahIndex s)
    by (vm_compute; discriminate).
  assert (Hstop : continuousPlay s = false \/ TOTAL_SURAHS <= selectedSurahNum s)
    by (left; vm_compute; reflexivity).
  split; [vm_compute; reflexivity|]. split; [vm_compute; reflexivity|].
  split; [vm_compute; reflexivity|]. split; [vm_compute; reflexivity|].
  exact (advance_at_corpus_end_stops s _ Hd Hlast Hstop).
Defined.



(** ** The pending-autoplay flag *)

(** C6.  The first [canplay] that finds the flag set starts playback once
    and clears the flag; a second [canplay] on the same source finds it
    cleared and changes nothing, so playback is started at most once. *)
Theorem canplay_consumes_flag_once s :
  let s1 := dispatch AudioCanPlay s in
  let s2 := dispatch AudioCanPlay s1 in
  autoPlayOnLoadRef s1 = false
  /\ plays (audioRef s1)
     = (if autoPlayOnLoadRef s then S (plays (audioRef s)) else plays (audioRef s))
  /\ src (audioRef s1) = src (audioRef s)
  /\ s2 = s1
  /\ plays (audioRef s2) = plays (audioRef s1).
Proof.
  intros s1 s2. subst s2 s1. rewrite !dispatch_AudioCanPlay.
  assert (Hclear : autoPlayOnLoadRef (handleCanPlay s) = false)
    by (unfold handleCanPlay; destruct (autoPlayOnLoadRef s) eqn:Hf; [reflexivity | exact Hf]).
  assert (Hagain : handleCanPlay (handleCanPlay s) = handleCanPlay s)
    by (unfold handleCanPlay at 1; rewrite Hclear; reflexivity).
  split; [exact Hclear|].
  split; [unfold handleCanPlay; destruct (autoPlayOnLoadRef s); reflexivity|].
  split; [unfold handleCanPlay; destruct (autoPlayOnLoadRef s); reflexivity|].
  split; [exact Hagain|]. rewrite Hagain. reflexivity.
Qed.

(** No handler assigns the source of the audio element; only the audio
    effect does. *)
Lemma handler_src e s : src (audioRef (handler e s)) = src (audioRef s).
Proof.
  destruct e; cbn [handler]; try reflexivity.
  - unfold handleNextAyah. destruct (surahData s) as [d|]; [|reflexivity].
    destruct (currentAyahIndex s >=? length_of d - 1); [|reflexivity].
    destruct (continuousPlay s && (selectedSurahNum s <? TOTAL_SURAHS)); reflexivity.
  - unfold handlePrevAyah. destruct (currentAyahIndex s >? 0); [reflexivity|].
    destruct (selectedSurahNum s >? 1); reflexivity.
  - unfold handleNextSurah. destruct (selectedSurahNum s <? TOTAL_SURAHS); reflexivity.
  - unfold handlePrevSurah. destruct (selectedSurahNum s >? 1); reflexivity.
  - destruct (nth_error (inflight s) i) as [c|]; [|reflexivity].
    unfold fetchSurahData. destruct (getSurahData (fc_edition c) o); [reflexivity|].
    destruct (fc_isPlaying c); reflexivity.
  - unfold handleCanPlay. destruct (autoPlayOnLoadRef s); reflexivity.
  - unfold handleNextAyah. destruct (surahData s) as [d|]; [|reflexivity].
    destruct (currentAyahIndex s >=? length_of d - 1); [|reflexivity].
    destruct (continuousPlay s && (selectedSurahNum s <? TOTAL_SURAHS)); reflexivity.
Qed.

Lemma handleNextAyah_flag s :
  autoPlayOnLoadRef s = false ->
  autoPlayOnLoadRef (handleNextAyah s s) = true ->
  exists d, surahData s = Some d /\ currentAyahIndex s < length_of d - 1.
Proof.
  unfold handleNextAyah. intros Hf Hset.
  destruct (surahData s) as [d|]; [|congruence].
  destruct (currentAyahIndex s >=? length_of d - 1) eqn:Hlast.
  - destruct (continuousPlay s && (selectedSurahNum s <? TOTAL_SURAHS));
      cbn in Hset; congruence.
  - exists d. split; [reflexivity|].
    rewrite Z.geb_leb in Hlast. apply Z.leb_gt in Hlast. exact Hlast.
Qed.

Lemma handler_flag e s :
  autoPlayOnLoadRef s = false ->
  autoPlayOnLoadRef (handler e s) = true ->
  sets_flag s e.
Proof.
  intros Hf Hset. destruct e; cbn [handler] in Hset;
    try (cbn in Hset; congruence).
  - destruct (handleNextAyah_flag s Hf Hset) as (d & Hd & Hlt).
    apply (sets_flag_advance s _ d); auto.
  - unfold handlePrevAyah in Hset.
    destruct (currentAyahIndex s >? 0) eqn:Hpos.
    + apply sets_flag_retreat. apply Z.gtb_lt in Hpos. lia.
    + destruct (selectedSurahNum s >? 1); cbn in Hset; congruence.
  - unfold handleNextSurah in Hset.
    destruct (selectedSurahNum s <? TOTAL_SURAHS); cbn in Hset; congruence.
  - unfold handlePrevSurah in Hset.
    destruct (selectedSurahNum s >? 1); cbn in Hset; congruence.
  - destruct (nth_error (inflight s) i) as [c|] eqn:Hc; [|congruence].
    unfold fetchSurahData in Hset.
    destruct (getSurahData (fc_edition c) o) as [m|d] eqn:Hr; [cbn in Hset; congruence|].
    destruct (fc_isPlaying c) eqn:Hp; [|cbn in Hset; congruence].
    apply (sets_flag_commit s i o c d); assumption.
  - unfold handleCanPlay in Hset. rewrite Hf in Hset. congruence.
  - destruct (handleNextAyah_flag s Hf Hset) as (d & Hd & Hlt).
    apply (sets_flag_advance s _ d); auto.
Qed.

(** The audio effect sets the flag only next to an assignment of a new
    source, and only when [isPlaying] is true. *)
Lemma audio_effect_flag s :
  autoPlayOnLoadRef s = false ->
  autoPlayOnLoadRef (audio_effect s) = true ->
  isPlaying s = true /\ src (audioRef (audio_effect s)) <> src (audioRef s).
Proof.
  unfold audio_effect. intros Hf Hset.
  destruct (surahData s) as [d|]; [|cbn in Hset; congruence].
  destruct (index (ayahs d) (currentAyahIndex s)) as [a|]; [|cbn in Hset; congruence].
  destruct (String.eqb (src (audioRef s)) (audio a)) eqn:Hsrc;
    destruct (isPlaying s); cbn in Hset |- *; try congruence.
  split; [reflexivity|].
  apply String.eqb_neq in Hsrc. congruence.
Qed.

Lemma surah_change_effect_audio s :
  audioRef (surah_change_effect s) = audioRef s.
Proof.
  unfold surah_change_effect.
  destruct ((selectedSurahNum s =? 0) || String.eqb (selectedEditionId s) "");
    reflexivity.
Qed.

Lemma after_render_flag prev next :
  autoPlayOnLoadRef next = false ->
  autoPlayOnLoadRef (after_render prev next) = true ->
  isPlaying next = true
  /\ src (audioRef (after_render prev next)) <> src (audioRef next).
Proof.
  unfold after_render. intros Hf Hset.
  set (s1 := if selection_changed prev next then surah_change_effect next else next) in *.
  assert (H1 : autoPlayOnLoadRef s1 = autoPlayOnLoadRef next
               /\ audioRef s1 = audioRef next /\ isPlaying s1 = isPlaying next).
  { subst s1. destruct (selection_changed prev next); [|repeat split].
    rewrite surah_change_effect_flag, surah_change_effect_audio.
    repeat split. apply surah_change_effect_cells. }
  destruct H1 as (Hf1 & Ha1 & Hp1).
  destruct (audio_deps_changed prev next); [|congruence].
  rewrite <- Ha1, <- Hp1. apply audio_effect_flag; congruence.
Qed.

(** C7 (as amended).  The flag goes from clear to set in four ways only:
    [advance] moving the cursor forward inside the chapter, [retreat]
    moving it backward inside the chapter, a fetch committing in a closure
    that captured [isPlaying = true], or the audio effect assigning a new
    source while [isPlaying] is true.  The first two set the flag whatever
    [isPlaying] is. *)
Theorem autoplay_flag_setters s :
  (forall e,
      autoPlayOnLoadRef s = false ->
      autoPlayOnLoadRef (dispatch e s) = true ->
      sets_flag s e
      \/ (isPlaying (dispatch e s) = true
          /\ src (audioRef (dispatch e s)) <> src (audioRef s)))
  /\ (forall d,
         surahData s = Some d ->
         currentAyahIndex s < length_of d - 1 ->
         autoPlayOnLoadRef (advance s) = true)
  /\ (0 < currentAyahIndex s -> autoPlayOnLoadRef (retreat s) = true).
Proof.
  split; [|split].
  - intros e Hf Hset.
    destruct (autoPlayOnLoadRef (handler e s)) eqn:Hh.
    + left. apply handler_flag; assumption.
    + right. unfold dispatch in *.
      destruct (after_render_flag s (handler e s) Hh Hset) as [Hp Hsrc].
      split.
      * destruct (after_render_cells s (handler e s)) as (_ & _ & _ & _ & _ & Cp & _).
        congruence.
      * rewrite <- (handler_src e s). exact Hsrc.
  - intros d Hd Hlt. unfold advance. apply after_render_keeps_flag.
    unfold handleNextAyah. rewrite Hd.
    replace (currentAyahIndex s >=? length_of d - 1) with false
      by (symmetry; rewrite Z.geb_leb; apply Z.leb_gt; exact Hlt).
    reflexivity.
  - intros Hpos. unfold retreat. apply after_render_keeps_flag.
    unfold handlePrevAyah.
    replace (currentAyahIndex s >? 0) with true by (symmetry; apply Z.gtb_lt; lia).
    reflexivity.
Qed.

Lemma autoplay_flag_setters_witness :
  let s := paused_on_first_ayah in
  autoPlayOnLoadRef s = false
  /\ autoPlayOnLoadRef (dispatch ClickNextAyah s) = true
  /\ (sets_flag s ClickNextAyah
      \/ (isPlaying (dispatch ClickNextAyah s) = true
          /\ src (audioRef (dispatch ClickNextAyah s)) <> src (audioRef s)))
  /\ autoPlayOnLoadRef (advance s) = true
  /\ autoPlayOnLoadRef (retreat (advance s)) = true.
Proof.
  intros s.
  assert (Hf : autoPlayOnLoadRef s = false) by (vm_compute; reflexivity).
  assert (Hset : autoPlayOnLoadRef (dispatch ClickNextAyah s) = true)
    by (vm_compute; reflexivity).
  assert (Hd : surahData s = Some (mkSurahData "ar.alafasy" 1 "Surah"
                 [mkAyah 1 1 "a1.mp3" "t1" "t1" "t1"; mkAyah 2 2 "a2.mp3" "t2" "t2" "t2"]))
    by (vm_compute; reflexivity).
  assert (Hlt : currentAyahIndex s
                < length_of (mkSurahData "ar.alafasy" 1 "Surah"
                    [mkAyah 1 1 "a1.mp3" "t1" "t1" "t1"; mkAyah 2 2 "a2.mp3" "t2" "t2" "t2"]) - 1)
    by (vm_compute; reflexivity).
  assert (Hpos : 0 < currentAyahIndex (advance s)) by (vm_compute; reflexivity).
  destruct (autoplay_flag_setters s) as (Honly & Hadv & _).
  destruct (autoplay_flag_setters (advance s)) as (_ & _ & Hret).
  split; [exact Hf|]. split; [exact Hset|].
  split; [exact (Honly ClickNextAyah Hf Hset)|].
  split; [exact (Hadv _ Hd Hlt) | exact (Hret Hpos)].
Defined.

(** C7 (as stated) fails: with the first bundle loaded and nothing playing,
    a click on "next ayah" sets the flag although [isPlaying] is false, and
    the [canplay] that follows starts playback while [isPlaying] is still
    false. *)
Lemma autoplay_flag_set_while_not_playing :
  let s := paused_on_first_ayah in
  let s1 := dispatch ClickNextAyah s in
  let s2 := dispatch AudioCanPlay s1 in
  ui_reachable s
  /\ enabled s ClickNextAyah = true
  /\ isPlaying s = false
  /\ autoPlayOnLoadRef s = false
  /\ autoPlayOnLoadRef s1 = true
  /\ isPlaying s1 = false
  /\ enabled s1 AudioCanPlay = true
  /\ plays (audioRef s2) = S (plays (audioRef s1))
  /\ isPlaying s2 = false.
Proof.
  cbv zeta.
  split; [apply ui_reachable_run; [constructor | vm_compute; reflexivity]|].
  repeat split; vm_compute; reflexivity.
Qed.

(** ** The audio source *)





(** ** The selection stays well formed *)

(** The hypotheses on the selection that the navigation theorems make
    (a chapter number that is not 0, a reciter that is not the empty
    string) hold in every state the page can be driven to. *)

Lemma handler_selection_ok e s :
  enabled s e = true -> selection_ok s -> selection_ok (handler e s).
Proof.
  unfold selection_ok, TOTAL_SURAHS. intros Hen [Hn He].
  destruct e; cbn [handler]; try (split; assumption).
  - unfold handleNextAyah. destruct (surahData s) as [d|]; [|split; assumption].
    destruct (currentAyahIndex s >=? length_of d - 1); [|split; assumption].
    destruct (selectedSurahNum s <? TOTAL_SURAHS) eqn:Hlt;
      destruct (continuousPlay s); cbn; try (split; assumption).
    apply Z.ltb_lt in Hlt. unfold TOTAL_SURAHS in Hlt. split; [lia | assumption].
  - unfold handlePrevAyah. destruct (currentAyahIndex s >? 0); [split; assumption|].
    destruct (selectedSurahNum s >? 1) eqn:Hgt; [|split; assumption].
    apply Z.gtb_lt in Hgt. cbn. split; [lia | assumption].
  - unfold handleNextSurah. destruct (selectedSurahNum s <? TOTAL_SURAHS) eqn:Hlt;
      [|split; assumption].
    apply Z.ltb_lt in Hlt. unfold TOTAL_SURAHS in Hlt. cbn. split; [lia | assumption].
  - unfold handlePrevSurah. destruct (selectedSurahNum s >? 1) eqn:Hgt;
      [|split; assumption].
    apply Z.gtb_lt in Hgt. cbn. split; [lia | assumption].
  - cbn in Hen |- *. apply andb_true_iff in Hen as [H1 H2].
    apply Z.leb_le in H1. apply Z.leb_le in H2. unfold TOTAL_SURAHS in H2.
    split; [lia | assumption].
  - cbn in Hen |- *. split; [assumption|].
    intros ->. discriminate Hen.
  - destruct (nth_error (inflight s) i) as [c|]; [|split; assumption].
    destruct (fetchSurahData_selection c (getSurahData (fc_edition c) o)
                (set_inflight (remove_nth i (inflight s)) s)) as [-> ->].
    split; assumption.
  - unfold handleCanPlay. destruct (autoPlayOnLoadRef s); split; assumption.
  - unfold handleNextAyah. destruct (surahData s) as [d|]; [|split; assumption].
    destruct (currentAyahIndex s >=? length_of d - 1); [|split; assumption].
    destruct (selectedSurahNum s <? TOTAL_SURAHS) eqn:Hlt;
      destruct (continuousPlay s); cbn; try (split; assumption).
    apply Z.ltb_lt in Hlt. unfold TOTAL_SURAHS in Hlt. split; [lia | assumption].
Qed.

Lemma ui_reachable_selection_ok s : ui_reachable s -> selection_ok s.
Proof.
  induction 1 as [|s e _ IH Hen].
  - unfold selection_ok, TOTAL_SURAHS. cbn. split; [lia | discriminate].
  - pose proof (handler_selection_ok e s Hen IH) as Hh.
    unfold selection_ok in *.
    rewrite dispatch_selectedSurahNum, dispatch_selectedEditionId. exact Hh.
Qed.

(** ** Seeking *)

(** [handleSeek] adds nothing to the element's setter: the position it
    leaves, and the one it reports in [audioProgress], is the one the
    setter produced for the parsed value. *)
Lemma handleSeek_delegates (Num : Type) (parseFloat : string -> Num)
    (set_currentTime : MediaClock Num -> Num -> MediaClock Num)
    (value : string) (audio audioProgress : MediaClock Num) :
  let r := handleSeek parseFloat set_currentTime value audio audioProgress in
  fst r = set_currentTime audio (parseFloat value)
  /\ currentTime (snd r) = currentTime (set_currentTime audio (parseFloat value))
  /\ duration (snd r) = duration audioProgress.
Proof. repeat split. Qed.

(** * Further properties of the player *)

(** ** The audio source follows the cursor *)

(** A handler replaces the bundle only by a fresh object or by [null]. *)
Lemma handler_surahData_stable e s :
  surahData_changed s (handler e s) = false ->
  surahData (handler e s) = surahData s.
Proof.
  intros Hsame. destruct e; cbn [handler] in *; try reflexivity.
  - unfold handleNextAyah. destruct (surahData s) as [d|] eqn:Hd; [|rewrite Hd; reflexivity].
    destruct (currentAyahIndex s >=? length_of d - 1);
      [destruct (continuousPlay s && (selectedSurahNum s <? TOTAL_SURAHS))|]; cbn; auto.
  - unfold handlePrevAyah. destruct (currentAyahIndex s >? 0); [reflexivity|].
    destruct (selectedSurahNum s >? 1); reflexivity.
  - unfold handleNextSurah. destruct (selectedSurahNum s <? TOTAL_SURAHS); reflexivity.
  - unfold handlePrevSurah. destruct (selectedSurahNum s >? 1); reflexivity.
  - destruct (nth_error (inflight s) i) as [c|]; [|reflexivity].
    unfold surahData_changed, fetchSurahData in *.
    destruct (getSurahData (fc_edition c) o) as [m|d].
    + cbn in *. destruct (surahData s); [|reflexivity].
      rewrite Nat.eqb_refl in Hsame. discriminate Hsame.
    + exfalso. destruct (fc_isPlaying c); cbn in Hsame;
        replace (Nat.eqb (surahDataGen s) (S (surahDataGen s))) with false in Hsame
          by (symmetry; apply Nat.eqb_neq; lia);
        discriminate Hsame.
  - unfold handleCanPlay. destruct (autoPlayOnLoadRef s); reflexivity.
  - unfold handleNextAyah. destruct (surahData s) as [d|] eqn:Hd; [|rewrite Hd; reflexivity].
    destruct (currentAyahIndex s >=? length_of d - 1);
      [destruct (continuousPlay s && (selectedSurahNum s <? TOTAL_SURAHS))|]; cbn; auto.
Qed.

(** What a render without a changed dependency of the audio effect keeps. *)
Lemma audio_deps_unchanged e s :
  audio_deps_changed s (handler e s) = false ->
  surahData (handler e s) = surahData s
  /\ currentAyahIndex (handler e s) = currentAyahIndex s
  /\ isPlaying (handler e s) = isPlaying s.
Proof.
  unfold audio_deps_changed. intros H.
  apply orb_false_iff in H as [H _].
  apply orb_false_iff in H as [H _].
  apply orb_false_iff in H as [H Hp].
  apply orb_false_iff in H as [Hd Hi].
  split; [apply handler_surahData_stable; exact Hd|].
  split.
  - apply negb_false_iff, Z.eqb_eq in Hi. symmetry. exact Hi.
  - apply negb_false_iff, Bool.eqb_prop in Hp. symmetry. exact Hp.
Qed.

(** The state the audio effect starts from has the audio element and the
    flag the handler left. *)
Lemma before_audio_effect prev next :
  let s1 := if selection_changed prev next then surah_change_effect next else next in
  same_cells next s1
  /\ audioRef s1 = audioRef next
  /\ autoPlayOnLoadRef s1 = autoPlayOnLoadRef next.
Proof.
  cbv zeta. destruct (selection_changed prev next).
  - split; [apply surah_change_effect_cells|].
    split; [apply surah_change_effect_audio | apply surah_change_effect_flag].
  - split; [apply same_cells_refl | split; reflexivity].
Qed.





(** ** The play intent is not lost *)

Lemma handler_intent_carried e s : intent_carried s -> intent_carried (handler e s).
Proof.
  unfold intent_carried. intros Hs.
  destruct e; cbn [handler]; try exact Hs.
  - unfold handleNextAyah. destruct (surahData s) as [d|]; [|exact Hs].
    destruct (currentAyahIndex s >=? length_of d - 1);
      [destruct (continuousPlay s && (selectedSurahNum s <? TOTAL_SURAHS)); exact Hs|].
    left. reflexivity.
  - unfold handlePrevAyah. destruct (currentAyahIndex s >? 0); [left; reflexivity|].
    destruct (selectedSurahNum s >? 1); exact Hs.
  - unfold handleNextSurah. destruct (selectedSurahNum s <? TOTAL_SURAHS); exact Hs.
  - unfold handlePrevSurah. destruct (selectedSurahNum s >? 1); exact Hs.
  - destruct (nth_error (inflight s) i) as [c|]; [|exact Hs].
    unfold fetchSurahData. destruct (getSurahData (fc_edition c) o); [exact Hs|].
    destruct (fc_isPlaying c); [left; reflexivity | exact Hs].
  - unfold handleCanPlay. destruct (autoPlayOnLoadRef s) eqn:Hf; [right; reflexivity|].
    rewrite Hf. exact Hs.
  - unfold handleNextAyah. destruct (surahData s) as [d|]; [|exact Hs].
    destruct (currentAyahIndex s >=? length_of d - 1);
      [destruct (continuousPlay s && (selectedSurahNum s <? TOTAL_SURAHS)); exact Hs|].
    left. reflexivity.
Qed.

(** On a unit, with [isPlaying] true, the audio effect either calls [play]
    or leaves the flag set. *)
Lemma audio_effect_intent_carried s : playing_unit s -> intent_carried (audio_effect s).
Proof.
  intros (Hp & d & a & Hd & Ha). unfold intent_carried, audio_effect.
  rewrite Hd, Ha, Hp.
  destruct (negb (String.eqb (src (audioRef s)) (audio a))); [left | right]; reflexivity.
Qed.

Lemma dispatch_intent_carried e s :
  (playing_unit s -> intent_carried s) ->
  playing_unit (dispatch e s) -> intent_carried (dispatch e s).
Proof.
  intros Hs. unfold dispatch, after_render.
  destruct (before_audio_effect s (handler e s)) as (Hcells & Haudio & Hflag).
  set (s1 := if selection_changed s (handler e s)
             then surah_change_effect (handler e s) else handler e s) in *.
  destruct Hcells as (_ & _ & Hd1 & _ & Hi1 & Hp1 & _).
  destruct (audio_deps_changed s (handler e s)) eqn:Hdeps.
  - intros (Hp & d & a & Hd & Ha).
    destruct (audio_effect_cells s1) as (_ & _ & Hd2 & _ & Hi2 & Hp2 & _).
    apply audio_effect_intent_carried.
    split; [congruence|]. exists d, a. split; congruence.
  - intros (Hp & d & a & Hd & Ha).
    destruct (audio_deps_unchanged e s Hdeps) as (Hd0 & Hi0 & Hp0).
    unfold intent_carried. rewrite Haudio, Hflag.
    apply handler_intent_carried, Hs.
    split; [congruence|]. exists d, a. split; congruence.
Qed.

(** X2.  In every state the hook can reach, when [isPlaying] is true and
    the cursor is on an ayah of the loaded bundle, either the
    pending-autoplay flag is set or the last call made on the audio element
    is [play]. *)
Theorem play_intent_is_carried s :
  reachable s ->
  playing_unit s ->
  autoPlayOnLoadRef s = true \/ hd_error (calls (audioRef s)) = Some Play.
Proof.
  induction 1 as [|s e _ IH].
  - intros (Hp & _). discriminate Hp.
  - apply dispatch_intent_carried. exact IH.
Qed.

Lemma play_intent_is_carried_witness :
  let s := run [FetchSettled 0 (Samples.answer 1 Samples.two_ayahs);
                ClickPlayPause; AudioEnded] initial in
  reachable s
  /\ playing_unit s
  /\ autoPlayOnLoadRef s = true
  /\ (autoPlayOnLoadRef s = true \/ hd_error (calls (audioRef s)) = Some Play).
Proof.
  intros s.
  assert (Hr : reachable s) by (apply reachable_run; constructor).
  assert (Hu : playing_unit s).
  { split; [vm_compute; reflexivity|].
    eexists. eexists. split; vm_compute; reflexivity. }
  split; [exact Hr|]. split; [exact Hu|]. split; [vm_compute; reflexivity|].
  exact (play_intent_is_carried s Hr Hu).
Defined.

(** ** Every assignment of the source is loaded *)

Lemma handler_audio_counts e s :
  loads (audioRef (handler e s)) = loads (audioRef s)
  /\ assignments (audioRef (handler e s)) = assignments (audioRef s).
Proof.
  destruct e; cbn [handler]; try (split; reflexivity).
  - unfold handleNextAyah. destruct (surahData s) as [d|]; [|split; reflexivity].
    destruct (currentAyahIndex s >=? length_of d - 1);
      [destruct (continuousPlay s && (selectedSurahNum s <? TOTAL_SURAHS))|];
      split; reflexivity.
  - unfold handlePrevAyah. destruct (currentAyahIndex s >? 0); [split; reflexivity|].
    destruct (selectedSurahNum s >? 1); split; reflexivity.
  - unfold handleNextSurah. destruct (selectedSurahNum s <? TOTAL_SURAHS); split; reflexivity.
  - unfold handlePrevSurah. destruct (selectedSurahNum s >? 1); split; reflexivity.
  - destruct (nth_error (inflight s) i) as [c|]; [|split; reflexivity].
    unfold fetchSurahData. destruct (getSurahData (fc_edition c) o);
      [|destruct (fc_isPlaying c)]; split; reflexivity.
  - unfold handleCanPlay. destruct (autoPlayOnLoadRef s); split; reflexivity.
  - unfold handleNextAyah. destruct (surahData s) as [d|]; [|split; reflexivity].
    destruct (currentAyahIndex s >=? length_of d - 1);
      [destruct (continuousPlay s && (selectedSurahNum s <? TOTAL_SURAHS))|];
      split; reflexivity.
Qed.

(** The audio effect assigns and loads together, or does neither. *)
Lemma audio_effect_counts s :
  exists n,
    loads (audioRef (audio_effect s)) = (n + loads (audioRef s))%nat
    /\ assignments (audioRef (audio_effect s)) = (n + assignments (audioRef s))%nat
    /\ (n <= 1)%nat.
Proof.
  unfold audio_effect.
  destruct (surahData s) as [d|]; [|exists 0%nat; repeat split; lia].
  destruct (index (ayahs d) (currentAyahIndex s)) as [a|]; [|exists 0%nat; repeat split; lia].
  destruct (negb (String.eqb (src (audioRef s)) (audio a))), (isPlaying s);
    [exists 1%nat | exists 1%nat | exists 0%nat | exists 0%nat];
    repeat split; lia.
Qed.

Lemma dispatch_audio_counts e s :
  exists n,
    loads (audioRef (dispatch e s)) = (n + loads (audioRef s))%nat
    /\ assignments (audioRef (dispatch e s)) = (n + assignments (audioRef s))%nat
    /\ (n <= 1)%nat.
Proof.
  unfold dispatch, after_render.
  destruct (before_audio_effect s (handler e s)) as (_ & Haudio & _).
  set (s1 := if selection_changed s (handler e s)
             then surah_change_effect (handler e s) else handler e s) in *.
  destruct (handler_audio_counts e s) as [Hl Ha].
  destruct (audio_deps_changed s (handler e s)).
  - destruct (audio_effect_counts s1) as (n & Hl1 & Ha1 & Hn).
    exists n. rewrite Hl1, Ha1, Haudio, Hl, Ha. repeat split; assumption.
  - exists 0%nat. rewrite Haudio, Hl, Ha. repeat split; lia.
Qed.

(** X3.  In every state the hook can reach, [load] has been called as
    often as [src] has been assigned, and one event assigns the source at
    most once. *)
Theorem every_assignment_is_loaded s :
  reachable s ->
  loads (audioRef s) = assignments (audioRef s)
  /\ forall e,
       (assignments (audioRef (dispatch e s)) <= S (assignments (audioRef s)))%nat.
Proof.
  intros Hr. split.
  - induction Hr as [|s e _ IH]; [reflexivity|].
    destruct (dispatch_audio_counts e s) as (n & Hl & Ha & _). lia.
  - intros e. destruct (dispatch_audio_counts e s) as (n & _ & Ha & Hn). lia.
Qed.

Lemma every_assignment_is_loaded_witness :
  let s := run [FetchSettled 0 (Samples.answer 1 Samples.two_ayahs);
                ClickPlayPause; ClickNextAyah; AudioCanPlay] initial in
  reachable s
  /\ assignments (audioRef s) = 2%nat
  /\ loads (audioRef s) = assignments (audioRef s).
Proof.
  intros s.
  assert (Hr : reachable s) by (apply reachable_run; constructor).
  split; [exact Hr|]. split; [vm_compute; reflexivity|].
  exact (proj1 (every_assignment_is_loaded s Hr)).
Defined.

(** ** Moving the cursor inside a chapter *)

Lemma audio_deps_changed_index prev next :
  currentAyahIndex prev <> currentAyahIndex next -> audio_deps_changed prev next = true.
Proof.
  intros Hne. unfold audio_deps_changed.
  apply Z.eqb_neq in Hne. rewrite Hne. cbn.
  rewrite orb_true_r. reflexivity.
Qed.


(** What the two handlers that step inside a chapter lead to: the cursor
    moves, the flag is set and the audio effect brings the new ayah's audio
    to the element; nothing is fetched. *)
Lemma cursor_move_result s f :
  f (currentAyahIndex s) <> currentAyahIndex s ->
  let s' := after_render s
              (set_autoPlayOnLoadRef true (setCurrentAyahIndex_with f s)) in
  currentAyahIndex s' = f (currentAyahIndex s)
  /\ selectedSurahNum s' = selectedSurahNum s
  /\ selectedEditionId s' = selectedEditionId s
  /\ surahData s' = surahData s
  /\ isPlaying s' = isPlaying s
  /\ inflight s' = inflight s
  /\ autoPlayOnLoadRef s' = true
  /\ forall d a,
       surahData s = Some d ->
       index (ayahs d) (f (currentAyahIndex s)) = Some a ->
       src (audioRef s') = audio a.
Proof.
  intros Hne s'. subst s'.
  set (next := set_autoPlayOnLoadRef true (setCurrentAyahIndex_with f s)).
  destruct (after_render_cells s next) as (Cn & Ce & Cd & _ & Ci & Cp & _).
  destruct (after_render_io s next eq_refl eq_refl) as (_ & _ & Ii).
  repeat (split; [assumption|]).
  split; [apply after_render_keeps_flag; reflexivity|].
  intros d a Hd Ha.
  rewrite after_render_same_selection by reflexivity.
  rewrite audio_deps_changed_index by (cbn; intros H; apply Hne; symmetry; exact H).
  apply (audio_effect_src next d a); assumption.
Qed.

(** X4.  Inside a chapter (the cursor is not on the last ayah), [advance]
    moves the cursor one ayah forward in the same chapter and bundle, sets
    the pending-autoplay flag, gives the audio element the audio of the new
    ayah, and fetches nothing. *)
Theorem advance_inside_chapter s d :
  surahData s = Some d ->
  0 <= currentAyahIndex s < length_of d - 1 ->
  let s' := advance s in
  currentAyahIndex s' = currentAyahIndex s + 1
  /\ selectedSurahNum s' = selectedSurahNum s
  /\ surahData s' = Some d
  /\ isPlaying s' = isPlaying s
  /\ inflight s' = inflight s
  /\ autoPlayOnLoadRef s' = true
  /\ exists a,
       index (ayahs d) (currentAyahIndex s + 1) = Some a
       /\ src (audioRef s') = audio a.
Proof.
  intros Hd Hrange s'. subst s'. unfold advance.
  assert (Hadv : handleNextAyah s s
                 = set_autoPlayOnLoadRef true (setCurrentAyahIndex_with (fun p => p + 1) s)).
  { unfold handleNextAyah. rewrite Hd.
    replace (currentAyahIndex s >=? length_of d - 1) with false
      by (symmetry; rewrite Z.geb_leb; apply Z.leb_gt; lia).
    reflexivity. }
  rewrite Hadv.
  assert (Hmove := cursor_move_result s (fun p => p + 1)). cbv zeta in Hmove.
  destruct Hmove as (Hi & Hn & _ & Hsd & Hp & Hin & Hf & Hsrc); [lia|].
  repeat (split; [congruence|]).
  destruct (index_in_range (ayahs d) (currentAyahIndex s + 1)) as [a Ha];
    [unfold length_of in Hrange; lia|].
  exists a. split; [exact Ha | exact (Hsrc d a Hd Ha)].
Qed.

Lemma advance_inside_chapter_witness :
  let s := paused_on_first_ayah in
  let s' := advance s in
  currentAyahIndex s = 0
  /\ currentAyahIndex s' = 1
  /\ inflight s' = inflight s
  /\ autoPlayOnLoadRef s' = true
  /\ src (audioRef s') = "a2.mp3".
Proof.
  intros s s'.
  assert (Hd : surahData s = Some (mkSurahData "ar.alafasy" 1 "Surah"
                 [mkAyah 1 1 "a1.mp3" "t1" "t1" "t1"; mkAyah 2 2 "a2.mp3" "t2" "t2" "t2"]))
    by (vm_compute; reflexivity).
  assert (Hrange : 0 <= currentAyahIndex s
                   < length_of (mkSurahData "ar.alafasy" 1 "Surah"
                       [mkAyah 1 1 "a1.mp3" "t1" "t1" "t1"; mkAyah 2 2 "a2.mp3" "t2" "t2" "t2"]) - 1)
    by (vm_compute; split; [discriminate | reflexivity]).
  pose proof (advance_inside_chapter s _ Hd Hrange) as H. cbv zeta in H.
  destruct H as (Hi & _ & _ & _ & Hin & Hf & a & Ha & Hsrc).
  split; [vm_compute; reflexivity|]. split; [exact Hi|]. split; [exact Hin|].
  split; [exact Hf|].
  vm_compute in Ha. injection Ha as <-. exact Hsrc.
Defined.

(** X5.  With the cursor past index 0, [retreat] moves it one ayah back in
    the same chapter, sets the pending-autoplay flag and fetches nothing,
    whether or not a bundle is loaded ([handlePrevAyah] does not look at
    [surahData]); if a bundle is loaded, the audio element gets the audio
    of the new ayah. *)
Theorem retreat_inside_chapter s :
  0 < currentAyahIndex s ->
  let s' := retreat s in
  currentAyahIndex s' = currentAyahIndex s - 1
  /\ selectedSurahNum s' = selectedSurahNum s
  /\ surahData s' = surahData s
  /\ isPlaying s' = isPlaying s
  /\ inflight s' = inflight s
  /\ autoPlayOnLoadRef s' = true
  /\ forall d a,
       surahData s = Some d ->
       index (ayahs d) (currentAyahIndex s - 1) = Some a ->
       src (audioRef s') = audio a.
Proof.
  intros Hpos s'. subst s'. unfold retreat.
  assert (Hret : handlePrevAyah s s
                 = set_autoPlayOnLoadRef true (setCurrentAyahIndex_with (fun p => p - 1) s)).
  { unfold handlePrevAyah.
    replace (currentAyahIndex s >? 0) with true by (symmetry; apply Z.gtb_lt; lia).
    reflexivity. }
  rewrite Hret.
  assert (Hmove := cursor_move_result s (fun p => p - 1)). cbv zeta in Hmove.
  destruct Hmove as (Hi & Hn & _ & Hsd & Hp & Hin & Hf & Hsrc); [lia|].
  repeat (split; [assumption|]). exact Hsrc.
Qed.

Lemma retreat_inside_chapter_witness :
  let s := run [FetchSettled 0 (Samples.answer 1 Samples.two_ayahs); ClickNextAyah;
                SelectSurah 2; FetchSettled 0 (NetworkFailure "Failed to fetch")] initial in
  let s' := retreat s in
  surahData s = None
  /\ currentAyahIndex s = 1
  /\ currentAyahIndex s' = 0
  /\ surahData s' = None
  /\ autoPlayOnLoadRef s' = true.
Proof.
  intros s s'.
  assert (Hpos : 0 < currentAyahIndex s) by (vm_compute; reflexivity).
  pose proof (retreat_inside_chapter s Hpos) as H. cbv zeta in H.
  destruct H as (Hi & _ & Hsd & _ & _ & Hf & _).
  split; [vm_compute; reflexivity|]. split; [vm_compute; reflexivity|].
  assert (Hnone : surahData s = None) by (vm_compute; reflexivity).
  split; [exact Hi|]. split; [exact (eq_trans Hsd Hnone) | exact Hf].
Defined.

(** X6.  Inside a chapter, [advance] followed by [retreat] brings the
    cursor and the source of the audio element back to the ayah they were
    on; the selection, the bundle and the fetches in flight are untouched. *)
Theorem advance_then_retreat s d a :
  surahData s = Some d ->
  index (ayahs d) (currentAyahIndex s) = Some a ->
  0 <= currentAyahIndex s < length_of d - 1 ->
  let s2 := retreat (advance s) in
  currentAyahIndex s2 = currentAyahIndex s
  /\ src (audioRef s2) = audio a
  /\ surahData s2 = Some d
  /\ selectedSurahNum s2 = selectedSurahNum s
  /\ isPlaying s2 = isPlaying s
  /\ inflight s2 = inflight s.
Proof.
  intros Hd Ha Hrange s2. subst s2.
  assert (Hadv : advance s
                 = after_render s
                     (set_autoPlayOnLoadRef true (setCurrentAyahIndex_with (fun p => p + 1) s))).
  { unfold advance, handleNextAyah. rewrite Hd.
    replace (currentAyahIndex s >=? length_of d - 1) with false
      by (symmetry; rewrite Z.geb_leb; apply Z.leb_gt; lia).
    reflexivity. }
  assert (H1 := cursor_move_result s (fun p => p + 1)). cbv zeta in H1.
  destruct H1 as (Hi1 & Hn1 & _ & Hsd1 & Hp1 & Hin1 & _ & _); [lia|].
  rewrite <- Hadv in Hi1, Hn1, Hsd1, Hp1, Hin1.
  set (s1 := advance s) in *.
  assert (Hret : retreat s1
                 = after_render s1
                     (set_autoPlayOnLoadRef true (setCurrentAyahIndex_with (fun p => p - 1) s1))).
  { unfold retreat, handlePrevAyah.
    replace (currentAyahIndex s1 >? 0) with true by (symmetry; apply Z.gtb_lt; lia).
    reflexivity. }
  assert (H2 := cursor_move_result s1 (fun p => p - 1)). cbv zeta in H2.
  destruct H2 as (Hi2 & Hn2 & _ & Hsd2 & Hp2 & Hin2 & _ & Hsrc2); [lia|].
  rewrite <- Hret in Hi2, Hn2, Hsd2, Hp2, Hin2, Hsrc2.
  split; [lia|].
  split.
  - apply (Hsrc2 d a); [congruence|].
    replace (currentAyahIndex s1 - 1) with (currentAyahIndex s) by lia. exact Ha.
  - repeat split; congruence.
Qed.

Lemma advance_then_retreat_witness :
  let s := paused_on_first_ayah in
  let s2 := retreat (advance s) in
  currentAyahIndex s2 = currentAyahIndex s
  /\ src (audioRef s2) = "a1.mp3".
Proof.
  intros s s2.
  assert (Hd : surahData s = Some (mkSurahData "ar.alafasy" 1 "Surah"
                 [mkAyah 1 1 "a1.mp3" "t1" "t1" "t1"; mkAyah 2 2 "a2.mp3" "t2" "t2" "t2"]))
    by (vm_compute; reflexivity).
  assert (Ha : index [mkAyah 1 1 "a1.mp3" "t1" "t1" "t1"; mkAyah 2 2 "a2.mp3" "t2" "t2" "t2"]
                 (currentAyahIndex s) = Some (mkAyah 1 1 "a1.mp3" "t1" "t1" "t1"))
    by (vm_compute; reflexivity).
  assert (Hrange : 0 <= currentAyahIndex s
                   < length_of (mkSurahData "ar.alafasy" 1 "Surah"
                       [mkAyah 1 1 "a1.mp3" "t1" "t1" "t1"; mkAyah 2 2 "a2.mp3" "t2" "t2" "t2"]) - 1)
    by (vm_compute; split; [discriminate | reflexivity]).
  pose proof (advance_then_retreat s _ _ Hd Ha Hrange) as H. cbv zeta in H.
  destruct H as (Hi & Hsrc & _).
  split; [exact Hi | exact Hsrc].
Defined.

(** X7.  With no bundle loaded, [advance] is a no-op: no cell, ref or
    audio call changes and nothing is fetched. *)
Theorem advance_without_bundle s :
  surahData s = None -> advance s = s.
Proof.
  intros Hd. unfold advance.
  assert (Hadv : handleNextAyah s s = s) by (unfold handleNextAyah; rewrite Hd; reflexivity).
  rewrite Hadv. apply after_render_quiet, same_cells_refl.
Qed.

Lemma advance_without_bundle_witness :
  surahData initial = None /\ advance initial = initial.
Proof.
  split; [reflexivity|]. exact (advance_without_bundle initial eq_refl).
Defined.

(** ** Chapter changes *)

(** X8.  While the fetch of the next chapter is in flight the old bundle
    and cursor stay in place, so a second [advance] (a second click, or
    the audio ending again) selects the chapter after the next one and
    issues a second fetch: chapter [k + 1] is skipped. *)
Theorem advance_twice_skips_a_chapter s d k :
  surahData s = Some d ->
  length_of d - 1 <= currentAyahIndex s ->
  continuousPlay s = true ->
  selectedSurahNum s = k ->
  1 <= k ->
  k + 1 < TOTAL_SURAHS ->
  selectedEditionId s <> "" ->
  let s2 := advance (advance s) in
  selectedSurahNum s2 = k + 2
  /\ surahData s2 = Some d
  /\ currentAyahIndex s2 = currentAyahIndex s
  /\ inflight s2
     = (inflight s ++ [mkFetch (k + 1) (selectedEditionId s) (isPlaying s);
                       mkFetch (k + 2) (selectedEditionId s) (isPlaying s)])%list.
Proof.
  intros Hd Hlast Hcont Hk H1 H2 Hed s2. subst s2.
  assert (Hadv : forall t,
             surahData t = Some d ->
             currentAyahIndex t = currentAyahIndex s ->
             continuousPlay t = true ->
             selectedSurahNum t < TOTAL_SURAHS ->
             advance t = after_render t (setSelectedSurahNum_with (fun n => n + 1) t)).
  { intros t Htd Hti Htc Htn. unfold advance, handleNextAyah. rewrite Htd, Htc, Hti.
    replace (currentAyahIndex s >=? length_of d - 1) with true
      by (symmetry; rewrite Z.geb_leb; apply Z.leb_le; exact Hlast).
    replace (selectedSurahNum t <? TOTAL_SURAHS) with true
      by (symmetry; apply Z.ltb_lt; exact Htn).
    reflexivity. }
  assert (R1 := after_render_chapter_request s (fun n => n + 1)). cbv zeta in R1.
  destruct R1 as (Hn1 & He1 & Hp1 & Hsd1 & Hi1 & Hin1); [lia | lia | exact Hed |].
  destruct (after_render_cells s (setSelectedSurahNum_with (fun n => n + 1) s))
    as (_ & _ & _ & _ & _ & _ & Hc1).
  rewrite <- (Hadv s Hd eq_refl Hcont) in Hn1, He1, Hp1, Hsd1, Hi1, Hin1, Hc1 by lia.
  set (s1 := advance s) in *. cbn in Hc1.
  assert (R2 := after_render_chapter_request s1 (fun n => n + 1)). cbv zeta in R2.
  destruct R2 as (Hn2 & _ & _ & Hsd2 & Hi2 & Hin2); [lia | lia | congruence |].
  rewrite <- (Hadv s1) in Hn2, Hsd2, Hi2, Hin2 by (congruence || lia).
  split; [lia|]. split; [congruence|]. split; [congruence|].
  rewrite Hin2, Hin1, He1, Hp1, Hn1, Hk, <- app_assoc.
  replace (k + 1 + 1) with (k + 2) by lia. reflexivity.
Qed.

Lemma advance_twice_skips_a_chapter_witness :
  let s := run [FetchSettled 0 (Samples.answer 1 Samples.two_ayahs);
                ClickPlayPause; ClickNextAyah; AudioCanPlay] initial in
  let s2 := advance (advance s) in
  selectedSurahNum s = 1
  /\ selectedSurahNum s2 = 1 + 2
  /\ inflight s2
     = (inflight s ++ [mkFetch (1 + 1) (selectedEditionId s) (isPlaying s);
                       mkFetch (1 + 2) (selectedEditionId s) (isPlaying s)])%list.
Proof.
  intros s s2.
  assert (Hd : surahData s = Some (mkSurahData "ar.alafasy" 1 "Surah"
                 [mkAyah 1 1 "a1.mp3" "t1" "t1" "t1"; mkAyah 2 2 "a2.mp3" "t2" "t2" "t2"]))
    by (vm_compute; reflexivity).
  assert (Hlast : length_of (mkSurahData "ar.alafasy" 1 "Surah"
                    [mkAyah 1 1 "a1.mp3" "t1" "t1" "t1"; mkAyah 2 2 "a2.mp3" "t2" "t2" "t2"]) - 1
                  <= currentAyahIndex s)
    by (vm_compute; discriminate).
  assert (Hcont : continuousPlay s = true) by (vm_compute; reflexivity).
  assert (Hk : selectedSurahNum s = 1) by (vm_compute; reflexivity).
  assert (H1 : 1 <= 1) by lia.
  assert (H2 : 1 + 1 < TOTAL_SURAHS) by (unfold TOTAL_SURAHS; lia).
  assert (Hed : selectedEditionId s <> "") by (vm_compute; discriminate).
  pose proof (advance_twice_skips_a_chapter s _ 1 Hd Hlast Hcont Hk H1 H2 Hed) as H.
  cbv zeta in H. destruct H as (Hn & _ & _ & Hin).
  split; [exact Hk|]. split; [exact Hn | exact Hin].
Defined.




(** X10.  The chapter buttons: at chapter 114 (or beyond) "next surah" is
    a no-op and at chapter 1 (or below) "previous surah" is a no-op;
    otherwise they select the neighbouring chapter and issue its fetch,
    leaving the bundle and the cursor for the commit to replace. *)
Theorem chapter_buttons s :
  (TOTAL_SURAHS <= selectedSurahNum s -> dispatch ClickNextSurah s = s)
  /\ (selectedSurahNum s <= 1 -> dispatch ClickPrevSurah s = s)
  /\ (1 <= selectedSurahNum s < TOTAL_SURAHS ->
      selectedEditionId s <> "" ->
      let s' := dispatch ClickNextSurah s in
      selectedSurahNum s' = selectedSurahNum s + 1
      /\ surahData s' = surahData s
      /\ currentAyahIndex s' = currentAyahIndex s
      /\ inflight s'
         = (inflight s
            ++ [mkFetch (selectedSurahNum s + 1) (selectedEditionId s) (isPlaying s)])%list)
  /\ (1 < selectedSurahNum s ->
      selectedEditionId s <> "" ->
      let s' := dispatch ClickPrevSurah s in
      selectedSurahNum s' = selectedSurahNum s - 1
      /\ surahData s' = surahData s
      /\ currentAyahIndex s' = currentAyahIndex s
      /\ inflight s'
         = (inflight s
            ++ [mkFetch (selectedSurahNum s - 1) (selectedEditionId s) (isPlaying s)])%list).
Proof.
  split; [|split; [|split]].
  - intros Hn. unfold dispatch. cbn [handler]. unfold handleNextSurah.
    replace (selectedSurahNum s <? TOTAL_SURAHS) with false
      by (symmetry; apply Z.ltb_ge; exact Hn).
    apply after_render_quiet, same_cells_refl.
  - intros Hn. unfold dispatch. cbn [handler]. unfold handlePrevSurah.
    replace (selectedSurahNum s >? 1) with false
      by (symmetry; rewrite Z.gtb_ltb; apply Z.ltb_ge; exact Hn).
    apply after_render_quiet, same_cells_refl.
  - intros Hn Hed s'. subst s'. unfold dispatch. cbn [handler]. unfold handleNextSurah.
    replace (selectedSurahNum s <? TOTAL_SURAHS) with true
      by (symmetry; apply Z.ltb_lt; lia).
    assert (R := after_render_chapter_request s (fun n => n + 1)). cbv zeta in R.
    destruct R as (Hn1 & _ & _ & Hsd & Hi & Hin); [lia | lia | exact Hed |].
    auto.
  - intros Hn Hed s'. subst s'. unfold dispatch. cbn [handler]. unfold handlePrevSurah.
    replace (selectedSurahNum s >? 1) with true
      by (symmetry; apply Z.gtb_lt; lia).
    assert (R := after_render_chapter_request s (fun n => n - 1)). cbv zeta in R.
    destruct R as (Hn1 & _ & _ & Hsd & Hi & Hin); [lia | lia | exact Hed |].
    auto.
Qed.

Lemma chapter_buttons_witness :
  let s := paused_on_first_ayah in
  let s' := dispatch ClickNextSurah s in
  dispatch ClickPrevSurah s = s
  /\ selectedSurahNum s' = 2
  /\ surahData s' = surahData s
  /\ inflight s' = [mkFetch 2 "ar.alafasy" false].
Proof.
  intros s s'.
  destruct (chapter_buttons s) as (_ & Hprev & Hnext & _).
  assert (H1 : selectedSurahNum s <= 1) by (vm_compute; discriminate).
  assert (Hn : 1 <= selectedSurahNum s < TOTAL_SURAHS)
    by (vm_compute; split; [discriminate | reflexivity]).
  assert (Hed : selectedEditionId s <> "") by (vm_compute; discriminate).
  specialize (Hnext Hn Hed). cbv zeta in Hnext.
  destruct Hnext as (Hn' & Hsd & _ & Hin).
  assert (H2 : selectedSurahNum s + 1 = 2) by (vm_compute; reflexivity).
  assert (Hq : (inflight s
                ++ [mkFetch (selectedSurahNum s + 1) (selectedEditionId s) (isPlaying s)])%list
               = [mkFetch 2 "ar.alafasy" false]) by (vm_compute; reflexivity).
  split; [exact (Hprev H1)|]. split; [exact (eq_trans Hn' H2)|]. split; [exact Hsd|].
  exact (eq_trans Hin Hq).
Defined.

(** ** Selections and settled fetches *)

(** X11.  Choosing another reciter issues exactly one fetch, for the
    current chapter and the new reciter, turns [isLoading] on and clears
    [error]; until that fetch settles the bundle, the cursor, the
    pending-autoplay flag and the audio element are as they were (the audio
    effect does not depend on the reciter). *)
Theorem reciter_change s e :
  e <> selectedEditionId s ->
  e <> "" ->
  selectedSurahNum s <> 0 ->
  let s' := dispatch (SelectEdition e) s in
  selectedEditionId s' = e
  /\ selectedSurahNum s' = selectedSurahNum s
  /\ inflight s' = (inflight s ++ [mkFetch (selectedSurahNum s) e (isPlaying s)])%list
  /\ isLoading s' = true
  /\ error s' = None
  /\ surahData s' = surahData s
  /\ currentAyahIndex s' = currentAyahIndex s
  /\ autoPlayOnLoadRef s' = autoPlayOnLoadRef s
  /\ audioRef s' = audioRef s.
Proof.
  intros Hne He Hn s'. subst s'. unfold dispatch. cbn [handler].
  unfold after_render, selection_changed, audio_deps_changed, surahData_changed. cbn.
  rewrite !Z.eqb_refl, Nat.eqb_refl, !Bool.eqb_reflx, xorb_nilpotent. cbn.
  replace (String.eqb (selectedEditionId s) e) with false
    by (symmetry; apply String.eqb_neq; intros H; apply Hne; symmetry; exact H).
  cbn. unfold surah_change_effect. cbn.
  apply Z.eqb_neq in Hn. rewrite Hn.
  apply String.eqb_neq in He. rewrite He. cbn.
  repeat split.
Qed.

Lemma reciter_change_witness :
  let s := paused_on_first_ayah in
  let s' := dispatch (SelectEdition "ar.husary") s in
  offered_edition "ar.husary" = true
  /\ selectedEditionId s' = "ar.husary"
  /\ inflight s' = (inflight s ++ [mkFetch (selectedSurahNum s) "ar.husary" (isPlaying s)])%list
  /\ audioRef s' = audioRef s.
Proof.
  intros s s'.
  assert (Hne : "ar.husary" <> selectedEditionId s) by (vm_compute; discriminate).
  assert (He : "ar.husary" <> "") by discriminate.
  assert (Hn : selectedSurahNum s <> 0) by (vm_compute; discriminate).
  pose proof (reciter_change s "ar.husary" Hne He Hn) as H. cbv zeta in H.
  destruct H as (H1 & _ & H3 & _ & _ & _ & _ & _ & H9).
  split; [reflexivity|]. split; [exact H1|]. split; [exact H3 | exact H9].
Defined.

Lemma remove_nth_length {A : Type} (l : list A) :
  forall i, (i < List.length l)%nat ->
            List.length (remove_nth i l) = pred (List.length l).
Proof.
  induction l as [|x l IH]; intros i Hi; cbn in *; [lia|].
  destruct i as [|j]; [reflexivity|].
  cbn. rewrite IH by lia. destruct l; cbn in *; lia.
Qed.

(** X12.  Every fetch that settles turns [isLoading] off, also when other
    fetches are still in flight: the [finally] clause does not look at
    what is pending. *)
Theorem settled_fetch_turns_loading_off s i o c :
  nth_error (inflight s) i = Some c ->
  (2 <= List.length (inflight s))%nat ->
  let s' := dispatch (FetchSettled i o) s in
  isLoading s' = false
  /\ List.length (inflight s') = pred (List.length (inflight s))
  /\ inflight s' <> [].
Proof.
  intros Hc Hlen s'.
  destruct (dispatch_FetchSettled s i o c Hc) as (_ & _ & Hl & Hin & _).
  fold s' in Hl, Hin.
  assert (Hi : (i < List.length (inflight s))%nat)
    by (apply nth_error_Some; rewrite Hc; discriminate).
  split; [exact Hl|].
  assert (Hlen' : List.length (inflight s') = pred (List.length (inflight s)))
    by (rewrite Hin; apply remove_nth_length; exact Hi).
  split; [exact Hlen'|].
  intros Hnil. rewrite Hnil in Hlen'. cbn in Hlen'. lia.
Qed.

Lemma settled_fetch_turns_loading_off_witness :
  let s := run [SelectSurah 2] initial in
  let s' := dispatch (FetchSettled 0 (Samples.answer 1 Samples.two_ayahs)) s in
  isLoading s = true
  /\ isLoading s' = false
  /\ inflight s' <> [].
Proof.
  intros s s'.
  assert (Hc : nth_error (inflight s) 0 = Some (mkFetch 1 "ar.alafasy" false))
    by (vm_compute; reflexivity).
  assert (Hlen : (2 <= List.length (inflight s))%nat) by (vm_compute; lia).
  pose proof (settled_fetch_turns_loading_off s 0 (Samples.answer 1 Samples.two_ayahs) _ Hc Hlen)
    as H.
  cbv zeta in H. destruct H as (Hl & _ & Hne).
  split; [vm_compute; reflexivity|]. split; [exact Hl | exact Hne].
Defined.

(** X13.  A fetch that commits does not clear [error]: a message stored by
    an earlier failure stays, and the page keeps showing the error display
    instead of the player although a bundle is loaded. *)
Theorem error_survives_commit s i o c d m :
  nth_error (inflight s) i = Some c ->
  getSurahData (fc_edition c) o = Returned d ->
  error s = Some m ->
  let s' := dispatch (FetchSettled i o) s in
  surahData s' = Some d
  /\ error s' = Some m
  /\ controls_rendered s' = false.
Proof.
  intros Hc Hd Herr s'.
  destruct (dispatch_FetchSettled s i o c Hc) as (_ & _ & _ & _ & Hr).
  fold s' in Hr. rewrite Hd in Hr. destruct Hr as (Hsd & _ & _ & He & _).
  split; [exact Hsd|]. split; [congruence|].
  unfold controls_rendered. rewrite He, Herr. reflexivity.
Qed.

Lemma error_survives_commit_witness :
  let s := run [SelectSurah 2; FetchSettled 0 (NetworkFailure "Failed to fetch")] initial in
  let o := Samples.answer 2 Samples.three_ayahs in
  let s' := dispatch (FetchSettled 0 o) s in
  ui_reachable s
  /\ enabled s (FetchSettled 0 o) = true
  /\ selectedSurahNum s = 2
  /\ error s' = Some "Failed to fetch"
  /\ controls_rendered s' = false
  /\ exists d, surahData s' = Some d /\ sd_number d = 2.
Proof.
  intros s o s'.
  assert (Hu : ui_reachable s)
    by (apply ui_reachable_run; [constructor | vm_compute; reflexivity]).
  assert (Hc : nth_error (inflight s) 0 = Some (mkFetch 2 "ar.alafasy" false))
    by (vm_compute; reflexivity).
  assert (Hd : getSurahData (fc_edition (mkFetch 2 "ar.alafasy" false)) o
               = Returned (mkSurahData "ar.alafasy" 2 "Surah"
                   [mkAyah 8 8 "b1.mp3" "u1" "u1" "u1"; mkAyah 9 9 "b2.mp3" "u2" "u2" "u2";
                    mkAyah 10 10 "b3.mp3" "u3" "u3" "u3"]))
    by (vm_compute; reflexivity).
  assert (Herr : error s = Some "Failed to fetch") by (vm_compute; reflexivity).
  pose proof (error_survives_commit s 0 o _ _ _ Hc Hd Herr) as H. cbv zeta in H.
  destruct H as (Hsd & He & Hctl).
  split; [exact Hu|]. split; [vm_compute; reflexivity|]. split; [vm_compute; reflexivity|].
  split; [exact He|]. split; [exact Hctl|].
  eexists. split; [exact Hsd | reflexivity].
Defined.

(** X14.  A failed fetch makes no call on the audio element: [isPlaying]
    becomes false, but the audio effect finds no bundle and returns before
    [pause]; it only detaches its listeners.  The pending-autoplay flag is
    left as it was. *)
Theorem failed_fetch_makes_no_audio_call s i o c m :
  nth_error (inflight s) i = Some c ->
  getSurahData (fc_edition c) o = Threw m ->
  let s' := dispatch (FetchSettled i o) s in
  audioRef s' = audioRef s
  /\ autoPlayOnLoadRef s' = autoPlayOnLoadRef s
  /\ (isPlaying s = true -> isPlaying s' = false /\ listening s' = false).
Proof.
  intros Hc Hm s'. subst s'. unfold dispatch. cbn [handler]. rewrite Hc, Hm.
  set (next := fetchSurahData c (Threw m) (set_inflight (remove_nth i (inflight s)) s)).
  rewrite after_render_same_selection by reflexivity.
  assert (He : audio_effect next = set_listening false next) by reflexivity.
  destruct (audio_deps_changed s next) eqn:Hdeps.
  - rewrite He. split; [reflexivity|]. split; [reflexivity|]. intros _. split; reflexivity.
  - split; [reflexivity|]. split; [reflexivity|]. intros Hp. exfalso.
    unfold audio_deps_changed in Hdeps. cbn in Hdeps. rewrite Hp in Hdeps. cbn in Hdeps.
    rewrite orb_true_r in Hdeps. cbn in Hdeps. discriminate Hdeps.
Qed.

Lemma failed_fetch_makes_no_audio_call_witness :
  let s := run [FetchSettled 0 (Samples.answer 1 Samples.two_ayahs);
                ClickPlayPause; SelectSurah 2] initial in
  let s' := dispatch (FetchSettled 0 (NetworkFailure "Failed to fetch")) s in
  isPlaying s = true
  /\ hd_error (calls (audioRef s)) = Some Play
  /\ audioRef s' = audioRef s
  /\ isPlaying s' = false
  /\ listening s' = false.
Proof.
  intros s s'.
  assert (Hc : nth_error (inflight s) 0 = Some (mkFetch 2 "ar.alafasy" true))
    by (vm_compute; reflexivity).
  assert (Hp : isPlaying s = true) by (vm_compute; reflexivity).
  pose proof (failed_fetch_makes_no_audio_call s 0 (NetworkFailure "Failed to fetch") _
                "Failed to fetch" Hc eq_refl) as H.
  cbv zeta in H. destruct H as (Ha & _ & Hstop).
  destruct (Hstop Hp) as [Hp' Hl'].
  split; [exact Hp|]. split; [vm_compute; reflexivity|].
  split; [exact Ha|]. split; [exact Hp' | exact Hl'].
Defined.

(** ** Play, pause and rejected playback *)







(** ** What is in flight, and what the page shows *)

Lemma In_remove_nth {A : Type} (x : A) (l : list A) :
  forall i, In x (remove_nth i l) -> In x l.
Proof.
  induction l as [|y l IH]; intros i Hin; cbn in *; [destruct i; exact Hin|].
  destruct i as [|j]; [right; exact Hin|].
  destruct Hin as [->|Hin]; [left; reflexivity | right; apply (IH j); exact Hin].
Qed.

(** A handler only ever removes a fetch from the list; the surah-change
    effect only ever appends the closure of the current selection. *)
Lemma handler_inflight e s c :
  In c (inflight (handler e s)) -> In c (inflight s).
Proof.
  destruct e; cbn [handler]; try (intros H; exact H).
  - unfold handleNextAyah. destruct (surahData s) as [d|]; [|intros H; exact H].
    destruct (currentAyahIndex s >=? length_of d - 1);
      [destruct (continuousPlay s && (selectedSurahNum s <? TOTAL_SURAHS))|];
      intros H; exact H.
  - unfold handlePrevAyah. destruct (currentAyahIndex s >? 0); [intros H; exact H|].
    destruct (selectedSurahNum s >? 1); intros H; exact H.
  - unfold handleNextSurah. destruct (selectedSurahNum s <? TOTAL_SURAHS); intros H; exact H.
  - unfold handlePrevSurah. destruct (selectedSurahNum s >? 1); intros H; exact H.
  - destruct (nth_error (inflight s) i) as [c0|]; [|intros H; exact H].
    unfold fetchSurahData.
    destruct (getSurahData (fc_edition c0) o); [|destruct (fc_isPlaying c0)];
      cbn; apply In_remove_nth.
  - unfold handleCanPlay. destruct (autoPlayOnLoadRef s); intros H; exact H.
  - unfold handleNextAyah. destruct (surahData s) as [d|]; [|intros H; exact H].
    destruct (currentAyahIndex s >=? length_of d - 1);
      [destruct (continuousPlay s && (selectedSurahNum s <? TOTAL_SURAHS))|];
      intros H; exact H.
Qed.

Lemma after_render_inflight prev next c :
  In c (inflight (after_render prev next)) ->
  In c (inflight next)
  \/ c = mkFetch (selectedSurahNum next) (selectedEditionId next) (isPlaying next).
Proof.
  unfold after_render.
  set (s1 := if selection_changed prev next then surah_change_effect next else next).
  assert (H1 : In c (inflight s1) ->
               In c (inflight next)
               \/ c = mkFetch (selectedSurahNum next) (selectedEditionId next) (isPlaying next)).
  { subst s1. destruct (selection_changed prev next); [|auto].
    unfold surah_change_effect.
    destruct ((selectedSurahNum next =? 0) || String.eqb (selectedEditionId next) "");
      [auto|].
    cbn. intros Hin. apply in_app_or in Hin as [Hin|[<-|[]]]; auto. }
  destruct (audio_deps_changed prev next); [|exact H1].
  destruct (audio_effect_io s1) as (_ & _ & ->). exact H1.
Qed.

(** X17.  In every state the page can be driven to, the selection is a
    chapter of the corpus with a non-empty reciter, and so is the selection
    every fetch in flight was issued for. *)
Theorem selection_and_fetches_stay_valid s :
  ui_reachable s ->
  selection_ok s /\ forall c, In c (inflight s) -> fetch_ok c.
Proof.
  induction 1 as [|s e Hs [IHs IHf] Hen].
  - split; [unfold selection_ok, TOTAL_SURAHS; cbn; split; [lia | discriminate]|].
    intros c [<-|[]]. unfold fetch_ok, TOTAL_SURAHS. cbn. split; [lia | discriminate].
  - assert (Hsel : selection_ok (handler e s)) by (apply handler_selection_ok; assumption).
    split.
    + unfold selection_ok in *.
      rewrite dispatch_selectedSurahNum, dispatch_selectedEditionId. exact Hsel.
    + intros c Hin. unfold dispatch in Hin.
      apply after_render_inflight in Hin as [Hin| ->].
      * apply IHf. apply (handler_inflight e s c Hin).
      * exact Hsel.
Qed.

Lemma selection_and_fetches_stay_valid_witness :
  let s := run [FetchSettled 0 (Samples.answer 1 Samples.two_ayahs); SelectSurah 113;
                ClickNextSurah; SelectEdition "ar.husary"] initial in
  ui_reachable s
  /\ selectedSurahNum s = 114
  /\ List.length (inflight s) = 3%nat
  /\ selection_ok s
  /\ forall c, In c (inflight s) -> fetch_ok c.
Proof.
  intros s.
  assert (Hu : ui_reachable s)
    by (apply ui_reachable_run; [constructor | vm_compute; reflexivity]).
  split; [exact Hu|]. split; [vm_compute; reflexivity|]. split; [vm_compute; reflexivity|].
  exact (selection_and_fetches_stay_valid s Hu).
Defined.

Lemma after_render_loading prev next :
  (isLoading (after_render prev next) = isLoading next
   /\ error (after_render prev next) = error next
   /\ inflight (after_render prev next) = inflight next)
  \/ (isLoading (after_render prev next) = true
      /\ inflight (after_render prev next) <> []).
Proof.
  unfold after_render.
  set (s1 := if selection_changed prev next then surah_change_effect next else next).
  assert (H1 : (isLoading s1 = isLoading next /\ error s1 = error next
                /\ inflight s1 = inflight next)
               \/ (isLoading s1 = true /\ inflight s1 <> [])).
  { subst s1. destruct (selection_changed prev next); [|left; repeat split].
    unfold surah_change_effect.
    destruct ((selectedSurahNum next =? 0) || String.eqb (selectedEditionId next) "");
      [left; repeat split|].
    right. cbn. split; [reflexivity|]. intros H. apply app_eq_nil in H as [_ H]. discriminate H. }
  destruct (audio_deps_changed prev next); [|exact H1].
  destruct (audio_effect_io s1) as (-> & -> & ->). exact H1.
Qed.

Lemma handler_no_bundle_is_explained e s :
  no_bundle_is_explained s -> no_bundle_is_explained (handler e s).
Proof.
  unfold no_bundle_is_explained. intros Hs.
  destruct e; cbn [handler]; try exact Hs.
  - unfold handleNextAyah. destruct (surahData s) as [d|] eqn:Hd; [|rewrite Hd; exact Hs].
    destruct (currentAyahIndex s >=? length_of d - 1);
      [destruct (continuousPlay s && (selectedSurahNum s <? TOTAL_SURAHS))|];
      cbn; rewrite Hd; discriminate.
  - unfold handlePrevAyah. destruct (currentAyahIndex s >? 0); [exact Hs|].
    destruct (selectedSurahNum s >? 1); exact Hs.
  - unfold handleNextSurah. destruct (selectedSurahNum s <? TOTAL_SURAHS); exact Hs.
  - unfold handlePrevSurah. destruct (selectedSurahNum s >? 1); exact Hs.
  - destruct (nth_error (inflight s) i) as [c|]; [|exact Hs].
    unfold fetchSurahData. destruct (getSurahData (fc_edition c) o).
    + intros _. left. reflexivity.
    + destruct (fc_isPlaying c); cbn; discriminate.
  - unfold handleCanPlay. destruct (autoPlayOnLoadRef s); exact Hs.
  - unfold handleNextAyah. destruct (surahData s) as [d|] eqn:Hd; [|rewrite Hd; exact Hs].
    destruct (currentAyahIndex s >=? length_of d - 1);
      [destruct (continuousPlay s && (selectedSurahNum s <? TOTAL_SURAHS))|];
      cbn; rewrite Hd; discriminate.
Qed.

Lemma reachable_no_bundle_is_explained s : reachable s -> no_bundle_is_explained s.
Proof.
  induction 1 as [|s e _ IH].
  - intros _. right. reflexivity.
  - pose proof (handler_no_bundle_is_explained e s IH) as Hh.
    unfold no_bundle_is_explained in *. rewrite dispatch_surahData. intros Hd.
    unfold dispatch.
    destruct (after_render_loading s (handler e s)) as [(Hl & He & _)|(Hl & _)].
    + rewrite Hl, He. apply Hh. exact Hd.
    + right. exact Hl.
Qed.

(** X18.  The player controls are rendered only over a loaded bundle: in
    every state the hook can reach, when no bundle is loaded the page shows
    the error display or the skeleton. *)
Theorem controls_are_shown_with_a_bundle s :
  reachable s ->
  controls_rendered s = true ->
  exists d, surahData s = Some d.
Proof.
  intros Hr Hctl.
  destruct (surahData s) as [d|] eqn:Hd; [exists d; reflexivity|].
  exfalso. unfold controls_rendered in Hctl. rewrite Hd in Hctl.
  destruct (reachable_no_bundle_is_explained s Hr Hd) as [He|Hl].
  - rewrite He in Hctl. discriminate Hctl.
  - rewrite Hl in Hctl. cbn in Hctl. rewrite andb_false_r in Hctl. discriminate Hctl.
Qed.

Lemma controls_are_shown_with_a_bundle_witness :
  reachable paused_on_first_ayah
  /\ controls_rendered paused_on_first_ayah = true
  /\ exists d, surahData paused_on_first_ayah = Some d.
Proof.
  assert (Hr : reachable paused_on_first_ayah) by (apply reachable_run; constructor).
  assert (Hc : controls_rendered paused_on_first_ayah = true) by (vm_compute; reflexivity).
  split; [exact Hr|]. split; [exact Hc|].
  exact (controls_are_shown_with_a_bundle paused_on_first_ayah Hr Hc).
Defined.

Lemma handler_loading e s :
  loading_has_fetch s ->
  isLoading (handler e s) = true -> inflight (handler e s) <> [].
Proof.
  unfold loading_has_fetch. intros Hs.
  destruct e; cbn [handler]; try exact Hs.
  - unfold handleNextAyah. destruct (surahData s) as [d|]; [|exact Hs].
    destruct (currentAyahIndex s >=? length_of d - 1);
      [destruct (continuousPlay s && (selectedSurahNum s <? TOTAL_SURAHS))|]; exact Hs.
  - unfold handlePrevAyah. destruct (currentAyahIndex s >? 0); [exact Hs|].
    destruct (selectedSurahNum s >? 1); exact Hs.
  - unfold handleNextSurah. destruct (selectedSurahNum s <? TOTAL_SURAHS); exact Hs.
  - unfold handlePrevSurah. destruct (selectedSurahNum s >? 1); exact Hs.
  - destruct (nth_error (inflight s) i) as [c|]; [|exact Hs].
    unfold fetchSurahData.
    destruct (getSurahData (fc_edition c) o); [|destruct (fc_isPlaying c)];
      cbn; discriminate.
  - unfold handleCanPlay. destruct (autoPlayOnLoadRef s); exact Hs.
  - unfold handleNextAyah. destruct (surahData s) as [d|]; [|exact Hs].
    destruct (currentAyahIndex s >=? length_of d - 1);
      [destruct (continuousPlay s && (selectedSurahNum s <? TOTAL_SURAHS))|]; exact Hs.
Qed.

(** X19.  In every state the hook can reach, [isLoading] is true only
    while a fetch is in flight. *)
Theorem loading_means_a_fetch_is_in_flight s :
  reachable s ->
  isLoading s = true ->
  inflight s <> [].
Proof.
  induction 1 as [|s e _ IH].
  - intros _. discriminate.
  - pose proof (handler_loading e s IH) as Hh. unfold dispatch.
    destruct (after_render_loading s (handler e s)) as [(Hl & _ & Hin)|(_ & Hin)].
    + rewrite Hl, Hin. exact Hh.
    + intros _. exact Hin.
Qed.

Lemma loading_means_a_fetch_is_in_flight_witness :
  let s := run [FetchSettled 0 (Samples.answer 1 Samples.two_ayahs); ClickNextSurah] initial in
  reachable s /\ isLoading s = true /\ inflight s <> [].
Proof.
  intros s.
  assert (Hr : reachable s) by (apply reachable_run; constructor).
  assert (Hl : isLoading s = true) by (vm_compute; reflexivity).
  split; [exact Hr|]. split; [exact Hl|].
  exact (loading_means_a_fetch_is_in_flight s Hr Hl).
Defined.

(** * Properties of the content provider *)

(** ** The bundle [getSurahData] returns *)

Lemma getSurahData_Returned editionId o d :
  getSurahData editionId o = Returned d ->
  exists audioData textData translationData,
    find_edition editionId (answer_editions o) = Some audioData
    /\ find_edition "quran-uthmani" (answer_editions o) = Some textData
    /\ find_edition "en.sahih" (answer_editions o) = Some translationData
    /\ d = {| sd_edition := edition_identifier audioData;
              sd_number := ed_number audioData;
              sd_englishName := ed_englishName audioData;
              ayahs := combinedAyahs audioData textData translationData |}.
Proof.
  intros Hr. destruct o as [m|res]; [discriminate Hr|].
  unfold getSurahData in Hr. unfold answer_editions.
  destruct (ok res); cbn in Hr; [|discriminate Hr].
  destruct (body res) as [j|]; [|discriminate Hr].
  destruct (data j) as [l| |]; try discriminate Hr.
  destruct (negb (code j =? 200)); [discriminate Hr|].
  destruct (find_edition editionId l) as [au|]; [|discriminate Hr].
  destruct (find_edition "quran-uthmani" l) as [tx|];
    [|destruct (find_edition "en.sahih" l); discriminate Hr].
  destruct (find_edition "en.sahih" l) as [tr|]; [|discriminate Hr].
  injection Hr as <-. exists au, tx, tr. repeat split.
Qed.

Lemma combine_from_nth txt trans au :
  forall i0 i a,
    nth_error (combine_from i0 txt trans au) i = Some a ->
    exists r,
      nth_error au i = Some r
      /\ number a = raw_number r
      /\ numberInSurah a = raw_numberInSurah r
      /\ audio a = raw_audio r
      /\ text a = raw_text r
      /\ textArabic a = text_at txt (i0 + i) BASMALAH
      /\ textEnglish a = text_at trans (i0 + i) BASMALAH_EN.
Proof.
  induction au as [|r au IH]; intros i0 i a Hn; cbn in Hn.
  - destruct i; discriminate Hn.
  - destruct i as [|i].
    + injection Hn as <-. exists r. rewrite Nat.add_0_r. cbn.
      unfold text_at, text_or.
      destruct (nth_error txt i0), (nth_error trans i0); repeat split.
    + cbn in Hn. destruct (IH (S i0) i a Hn) as (r' & Hr & H).
      exists r'. split; [exact Hr|].
      replace (i0 + S i)%nat with (S i0 + i)%nat by lia. exact H.
Qed.

Lemma combine_from_length txt trans au :
  forall i0, List.length (combine_from i0 txt trans au) = List.length au.
Proof.
  induction au as [|r au IH]; intros i0; cbn; [reflexivity|].
  rewrite IH. reflexivity.
Qed.

Lemma combine_from_audio txt trans au :
  forall i0,
    map audio (combine_from i0 txt trans au) = map raw_audio au
    /\ map number (combine_from i0 txt trans au) = map raw_number au.
Proof.
  induction au as [|r au IH]; intros i0; cbn; [split; reflexivity|].
  destruct (IH (S i0)) as [-> ->]. split; reflexivity.
Qed.

(** X20.  A bundle that [getSurahData] returns is built on the first
    edition of the answer whose identifier is the requested reciter: it
    carries that edition's chapter number and has exactly its ayahs, in
    order, with their numbers and audio locators. *)
Theorem bundle_follows_the_audio_edition editionId o d :
  getSurahData editionId o = Returned d ->
  exists audioData,
    find_edition editionId (answer_editions o) = Some audioData
    /\ In audioData (answer_editions o)
    /\ edition_identifier audioData = editionId
    /\ sd_number d = ed_number audioData
    /\ List.length (ayahs d) = List.length (ed_ayahs audioData)
    /\ map audio (ayahs d) = map raw_audio (ed_ayahs audioData)
    /\ map number (ayahs d) = map raw_number (ed_ayahs audioData).
Proof.
  intros Hr.
  destruct (getSurahData_Returned editionId o d Hr) as (au & tx & tr & Hau & _ & _ & ->).
  exists au. split; [exact Hau|].
  unfold find_edition in Hau. apply find_some in Hau as [Hin Heq].
  split; [exact Hin|]. split; [apply String.eqb_eq; exact Heq|].
  cbn. unfold combinedAyahs.
  split; [reflexivity|]. split; [apply combine_from_length|].
  apply combine_from_audio.
Qed.

Lemma bundle_follows_the_audio_edition_witness :
  exists d audioData,
    getSurahData "ar.alafasy" (Samples.answer 2 Samples.three_ayahs) = Returned d
    /\ edition_identifier audioData = "ar.alafasy"
    /\ List.length (ayahs d) = List.length (ed_ayahs audioData)
    /\ map audio (ayahs d) = map raw_audio (ed_ayahs audioData).
Proof.
  eexists.
  assert (Hr : getSurahData "ar.alafasy" (Samples.answer 2 Samples.three_ayahs)
               = Returned (mkSurahData "ar.alafasy" 2 "Surah"
                   [mkAyah 8 8 "b1.mp3" "u1" "u1" "u1"; mkAyah 9 9 "b2.mp3" "u2" "u2" "u2";
                    mkAyah 10 10 "b3.mp3" "u3" "u3" "u3"]))
    by (vm_compute; reflexivity).
  destruct (bundle_follows_the_audio_edition _ _ _ Hr)
    as (au & _ & _ & Hid & _ & Hlen & Haudio & _).
  exists au. split; [exact Hr|]. split; [exact Hid|]. split; [exact Hlen | exact Haudio].
Defined.

Lemma text_at_not_empty l i dflt : dflt <> "" -> text_at l i dflt <> "".
Proof.
  intros Hd. unfold text_at. destruct (nth_error l i) as [r|]; [|exact Hd].
  destruct (String.eqb (raw_text r) "") eqn:He; [exact Hd|].
  apply String.eqb_neq. exact He.
Qed.

(** X21.  No ayah of a returned bundle has an empty Arabic or English
    text: where the text or translation edition has no ayah at that
    position, or an empty text, the Basmalah fallback is used and the
    bundle is returned all the same. *)
Theorem bundle_texts_are_never_empty editionId o d a :
  getSurahData editionId o = Returned d ->
  In a (ayahs d) ->
  textArabic a <> "" /\ textEnglish a <> "".
Proof.
  intros Hr Hin.
  destruct (getSurahData_Returned editionId o d Hr) as (au & tx & tr & _ & _ & _ & ->).
  cbn in Hin. apply In_nth_error in Hin as [i Hi].
  destruct (combine_from_nth _ _ _ 0%nat i a Hi) as (r & _ & _ & _ & _ & _ & Har & Hen).
  rewrite Har, Hen.
  split; apply text_at_not_empty; discriminate.
Qed.

Lemma bundle_texts_are_never_empty_witness :
  let o := Responded
             {| ok := true; statusText := "OK";
                body := Some {| code := 200;
                                data := DataArray
                                  [ mkEditionData "ar.alafasy" 9 "At-Tawba"
                                      [Samples.raw 1 "c1.mp3" ""; Samples.raw 2 "c2.mp3" ""];
                                    mkEditionData "quran-uthmani" 9 "At-Tawba"
                                      [Samples.raw 1 "" ""];
                                    mkEditionData "en.sahih" 9 "At-Tawba" [] ] |};
                parse_message := "" |} in
  exists d,
    getSurahData "ar.alafasy" o = Returned d
    /\ List.length (ayahs d) = 2%nat
    /\ forall a, In a (ayahs d) -> textArabic a <> "" /\ textEnglish a <> "".
Proof.
  intros o. eexists.
  assert (Hr : getSurahData "ar.alafasy" o
               = Returned (mkSurahData "ar.alafasy" 9 "At-Tawba"
                   [mkAyah 1 1 "c1.mp3" "" BASMALAH BASMALAH_EN;
                    mkAyah 2 2 "c2.mp3" "" BASMALAH BASMALAH_EN]))
    by (vm_compute; reflexivity).
  split; [exact Hr|]. split; [reflexivity|].
  intros a Hin. exact (bundle_texts_are_never_empty _ _ _ a Hr Hin).
Defined.

(** X22.  The texts of a returned bundle are aligned by position with the
    editions [quran-uthmani] and [en.sahih] of the answer: the ayah at
    index [i] carries the text found at index [i] of each, and the
    fallback where that index is missing or its text is empty. *)
Theorem bundle_texts_are_aligned editionId o d :
  getSurahData editionId o = Returned d ->
  exists textData translationData,
    find_edition "quran-uthmani" (answer_editions o) = Some textData
    /\ find_edition "en.sahih" (answer_editions o) = Some translationData
    /\ forall i a,
         nth_error (ayahs d) i = Some a ->
         textArabic a = text_at (ed_ayahs textData) i BASMALAH
         /\ textEnglish a = text_at (ed_ayahs translationData) i BASMALAH_EN.
Proof.
  intros Hr.
  destruct (getSurahData_Returned editionId o d Hr) as (au & tx & tr & _ & Htx & Htr & ->).
  exists tx, tr. split; [exact Htx|]. split; [exact Htr|].
  intros i a Hi. cbn in Hi.
  destruct (combine_from_nth _ _ _ 0%nat i a Hi) as (r & _ & _ & _ & _ & _ & Har & Hen).
  split; assumption.
Qed.

Lemma bundle_texts_are_aligned_witness :
  exists d textData,
    getSurahData "ar.alafasy" (Samples.answer 2 Samples.three_ayahs) = Returned d
    /\ find_edition "quran-uthmani" (answer_editions (Samples.answer 2 Samples.three_ayahs))
       = Some textData
    /\ forall i a,
         nth_error (ayahs d) i = Some a ->
         textArabic a = text_at (ed_ayahs textData) i BASMALAH.
Proof.
  eexists.
  assert (Hr : getSurahData "ar.alafasy" (Samples.answer 2 Samples.three_ayahs)
               = Returned (mkSurahData "ar.alafasy" 2 "Surah"
                   [mkAyah 8 8 "b1.mp3" "u1" "u1" "u1"; mkAyah 9 9 "b2.mp3" "u2" "u2" "u2";
                    mkAyah 10 10 "b3.mp3" "u3" "u3" "u3"]))
    by (vm_compute; reflexivity).
  destruct (bundle_texts_are_aligned _ _ _ Hr) as (tx & tr & Htx & _ & Halign).
  exists tx. split; [exact Hr|]. split; [exact Htx|].
  intros i a Hi. exact (proj1 (Halign i a Hi)).
Defined.

(** ** The menus *)

Lemma checked_list_Returned {A : Type} (not_ok invalid : string)
    (o : Catalog.ListOutcome A) (l : list A) :
  Catalog.checked_list not_ok invalid o = Catalog.ListReturned l <-> listed o = Some l.
Proof.
  unfold Catalog.checked_list, listed.
  destruct o as [m|res]; [split; discriminate|].
  destruct (Catalog.lr_ok res); cbn; [|split; discriminate].
  destruct (Catalog.lr_body res) as [json|]; [|split; discriminate].
  destruct (Catalog.env_data json) as [l0|], (Catalog.env_code json =? 200); cbn;
    split; intros H; try discriminate H; injection H as <-; reflexivity.
Qed.

(** X23.  The reciters [getAudioEditions] returns are exactly the editions
    of the answer whose identifier starts with [ar.] and whose format is
    [audio]; none of them has an empty identifier, so choosing any of them
    in the menu is an event the page can deliver and its fetch passes the
    guard of the surah-change effect. *)
Theorem offered_reciters o l :
  Catalog.getAudioEditions o = Catalog.ListReturned l ->
  exists answer,
    listed o = Some answer
    /\ (forall e, In e l <-> In e answer /\ Catalog.reliable e = true)
    /\ forall e,
         In e l ->
         Catalog.ei_format e = "audio"
         /\ Catalog.ei_identifier e <> ""
         /\ forall s, enabled s (SelectEdition (Catalog.ei_identifier e)) = true.
Proof.
  unfold Catalog.getAudioEditions. intros Hr.
  destruct (Catalog.checked_list _ _ o) as [m|answer] eqn:Hc; [discriminate Hr|].
  injection Hr as <-. apply checked_list_Returned in Hc.
  exists answer. split; [exact Hc|]. split.
  - intros e. apply filter_In.
  - intros e Hin. apply filter_In in Hin as [_ Hrel].
    unfold Catalog.reliable in Hrel. apply andb_true_iff in Hrel as [Hpre Hfmt].
    split; [apply String.eqb_eq; exact Hfmt|].
    split; [intros He; rewrite He in Hpre; discriminate Hpre|].
    intros s. exact Hpre.
Qed.

Lemma offered_reciters_witness :
  let o := Catalog.ListResponded
             {| Catalog.lr_ok := true; Catalog.lr_statusText := "OK";
                Catalog.lr_body := Some
                  {| Catalog.env_code := 200;
                     Catalog.env_data := Some
                       [ Catalog.mkEditionInfo "ar.alafasy" "audio" "Alafasy" "Alafasy";
                         Catalog.mkEditionInfo "en.walk" "audio" "Walk" "Ibrahim Walk";
                         Catalog.mkEditionInfo "ar.muyassar" "text" "Muyassar" "Muyassar" ] |};
                Catalog.lr_parse_message := "" |} in
  let l := [Catalog.mkEditionInfo "ar.alafasy" "audio" "Alafasy" "Alafasy"] in
  Catalog.getAudioEditions o = Catalog.ListReturned l
  /\ forall e, In e l -> Catalog.ei_identifier e <> "".
Proof.
  intros o l.
  assert (Hr : Catalog.getAudioEditions o = Catalog.ListReturned l) by (vm_compute; reflexivity).
  destruct (offered_reciters o l Hr) as (answer & _ & _ & Hok).
  split; [exact Hr|]. intros e Hin. exact (proj1 (proj2 (Hok e Hin))).
Defined.

(** X24.  The initial fetch is all or nothing: when both lists arrive they
    are stored and no cell of the player changes; when either request
    fails, neither list is stored (the one that arrived is dropped), the
    message of a failed request is put in [error], and the bundle, the
    cursor and [isLoading] are left as they were. *)
Theorem initial_fetch_is_all_or_nothing rs re editions_first m s :
  let r := Catalog.fetchInitialData rs re editions_first m s in
  (forall ls le,
      rs = Catalog.ListReturned ls -> re = Catalog.ListReturned le ->
      r = (Catalog.mkMenus ls le, s))
  /\ ((exists a, rs = Catalog.ListThrew a) \/ (exists b, re = Catalog.ListThrew b) ->
      fst r = m
      /\ (exists msg,
             error (snd r) = Some msg
             /\ (rs = Catalog.ListThrew msg \/ re = Catalog.ListThrew msg))
      /\ surahData (snd r) = surahData s
      /\ currentAyahIndex (snd r) = currentAyahIndex s
      /\ isLoading (snd r) = isLoading s).
Proof.
  cbv zeta. split.
  - intros ls le -> ->. reflexivity.
  - intros Hfail. destruct rs as [a|ls], re as [b|le]; cbn.
    + split; [reflexivity|]. split; [|repeat split].
      destruct editions_first; [exists b | exists a]; split; auto.
    + split; [reflexivity|]. split; [|repeat split]. exists a. split; auto.
    + split; [reflexivity|]. split; [|repeat split]. exists b. split; auto.
    + exfalso. destruct Hfail as [[a Ha]|[b Hb]]; discriminate.
Qed.

Lemma initial_fetch_is_all_or_nothing_witness :
  let rs := Catalog.ListThrew "Failed to fetch surahs: Service Unavailable" in
  let re := Catalog.ListReturned
              [Catalog.mkEditionInfo "ar.alafasy" "audio" "Alafasy" "Alafasy"] in
  let r := Catalog.fetchInitialData rs re false (Catalog.mkMenus [] []) initial in
  Catalog.editionOptions (fst r) = []
  /\ exists msg, error (snd r) = Some msg.
Proof.
  intros rs re r.
  destruct (initial_fetch_is_all_or_nothing rs re false (Catalog.mkMenus [] []) initial)
    as [_ Hfail].
  destruct Hfail as (Hm & (msg & Hmsg & _) & _); [left; eexists; reflexivity|].
  split; [exact (f_equal Catalog.editionOptions Hm)|].
  exists msg. exact Hmsg.
Defined.

(** ** The content service *)

Lemma find_all_false {A : Type} (p : A -> bool) (l : list A) :
  (forall x, In x l -> p x = false) -> find p l = None.
Proof.
  induction l as [|x l IH]; intros H; cbn; [reflexivity|].
  rewrite (H x (or_introl eq_refl)). apply IH. intros y Hy. apply H. right. exact Hy.
Qed.

Lemma fetchContentData_listed mode number_text audioEdition textEdition o l :
  content_listed o = Some l ->
  ContentService.fetchContentData mode number_text audioEdition textEdition o
  = match find (ContentService.has_identifier audioEdition) l,
          find (ContentService.has_identifier "quran-uthmani") l,
          find (ContentService.has_identifier textEdition) l with
    | Some audioData, Some textData, Some translationData =>
        ContentService.ContentReturned
          {| ContentService.c_number := ContentService.number audioData;
             ContentService.c_name := ContentService.name audioData;
             ContentService.c_englishName := ContentService.englishName audioData;
             ContentService.c_englishNameTranslation :=
               ContentService.englishNameTranslation audioData;
             ContentService.c_revelationType := ContentService.revelationType audioData;
             ContentService.c_numberOfAyahs := ContentService.numberOfAyahs audioData;
             ContentService.c_ayahs :=
               ContentService.combine_from 0 (ContentService.ayahs textData)
                 (ContentService.ayahs translationData) (ContentService.ayahs audioData);
             ContentService.c_edition := ContentService.edition audioData |}
    | _, _, _ =>
        ContentService.ContentThrew
          (ContentService.Message
             "One or more required editions are missing for this selection.")
    end.
Proof.
  unfold content_listed, ContentService.fetchContentData.
  destruct o as [m|res]; [discriminate|].
  destruct (ContentService.body res) as [json|]; [|discriminate].
  destruct (ContentService.ok res), (ContentService.code json =? 200); cbn;
    try discriminate.
  destruct (ContentService.data json) as [l0| |]; try discriminate.
  intros [= ->]. reflexivity.
Qed.

(** X25.  [fetchContentData] looks the editions up by the top-level member
    [identifier] of each element.  On an answer whose elements carry their
    identifier only inside [edition] (the shape page.js reads), it finds
    none of them and throws "One or more required editions are missing",
    whatever reciter and translation are asked for. *)
Theorem content_lookup_needs_top_level_identifier
    mode number_text audioEdition textEdition o l :
  content_listed o = Some l ->
  (forall d, In d l -> ContentService.identifier d = None) ->
  ContentService.fetchContentData mode number_text audioEdition textEdition o
  = ContentService.ContentThrew
      (ContentService.Message "One or more required editions are missing for this selection.").
Proof.
  intros Hl Hnone.
  rewrite (fetchContentData_listed _ _ _ _ o l Hl).
  rewrite (find_all_false (ContentService.has_identifier audioEdition) l); [reflexivity|].
  intros d Hd. unfold ContentService.has_identifier. rewrite (Hnone d Hd). reflexivity.
Qed.

Lemma content_lookup_needs_top_level_identifier_witness :
  let el := fun id => ContentService.mkContentEdition None id 1 "Al-Faatiha" "Al-Faatiha"
                        "The Opening" "Meccan" 7 Samples.two_ayahs in
  let l := [el "ar.alafasy"; el "quran-uthmani"; el "en.sahih"] in
  let o := ContentService.ContentResponded
             {| ContentService.ok := true;
                ContentService.body := Some {| ContentService.code := 200;
                                               ContentService.data := ContentService.ContentArray l |};
                ContentService.parse_message := "" |} in
  ContentService.fetchContentData "surah" "1" "ar.alafasy" "en.sahih" o
  = ContentService.ContentThrew
      (ContentService.Message "One or more required editions are missing for this selection.").
Proof.
  intros el l o.
  assert (Hl : content_listed o = Some l) by reflexivity.
  assert (Hnone : forall d, In d l -> ContentService.identifier d = None).
  { intros d [<-|[<-|[<-|[]]]]; reflexivity. }
  exact (content_lookup_needs_top_level_identifier "surah" "1" "ar.alafasy" "en.sahih" o l
           Hl Hnone).
Defined.




(** ** Font sizes *)

Lemma handleFontSizeChange_in_range type change f :
  fonts_in_range f -> fonts_in_range (handleFontSizeChange type change f).
Proof.
  unfold fonts_in_range, handleFontSizeChange. intros [Ha He].
  destruct (String.eqb type "arabic"); cbn; split; lia.
Qed.

(** X27.  Whatever sequence of font-size changes is applied from the
    initial sizes, with whatever type strings and steps, the Arabic size
    stays within 1.5 and 4.0 rem and the English size within 0.875 and
    2.0 rem (12..32 and 7..16 eighths). *)
Theorem font_sizes_stay_in_range cs :
  fonts_in_range (font_changes cs initial_fonts).
Proof.
  assert (H : forall f, fonts_in_range f -> fonts_in_range (font_changes cs f)).
  { induction cs as [|[type change] cs IH]; intros f Hf; cbn; [exact Hf|].
    apply IH, handleFontSizeChange_in_range, Hf. }
  apply H. unfold fonts_in_range, initial_fonts. cbn. lia.
Qed.

(** X28.  The two buttons of one font undo each other away from the
    bounds, and do nothing at them: below the maximum, plus then minus
    gives the sizes back; above the minimum, minus then plus does; at the
    maximum plus changes nothing and at the minimum minus changes nothing.
    The other font's size is never touched. *)
Theorem font_buttons type f :
  fonts_in_range f ->
  (font_size type f < font_max type ->
   handleFontSizeChange type (-1) (handleFontSizeChange type 1 f) = f)
  /\ (font_min type < font_size type f ->
      handleFontSizeChange type 1 (handleFontSizeChange type (-1) f) = f)
  /\ (font_size type f = font_max type -> handleFontSizeChange type 1 f = f)
  /\ (font_size type f = font_min type -> handleFontSizeChange type (-1) f = f).
Proof.
  unfold fonts_in_range, font_size, font_min, font_max, handleFontSizeChange.
  destruct f as [a e]. cbn. intros [Ha He].
  destruct (String.eqb type "arabic"); cbn;
    repeat split; intros H; f_equal; lia.
Qed.

Lemma font_buttons_witness :
  handleFontSizeChange "arabic" (-1) (handleFontSizeChange "arabic" 1 initial_fonts)
  = initial_fonts
  /\ handleFontSizeChange "english" 1 (mkFontSizes 18 16) = mkFontSizes 18 16.
Proof.
  assert (H0 : fonts_in_range initial_fonts)
    by (unfold fonts_in_range, initial_fonts; cbn; lia).
  assert (H1 : fonts_in_range (mkFontSizes 18 16))
    by (unfold fonts_in_range; cbn; lia).
  destruct (font_buttons "arabic" initial_fonts H0) as (Hup & _).
  destruct (font_buttons "english" (mkFontSizes 18 16) H1) as (_ & _ & Hmax & _).
  split; [apply Hup; vm_compute; reflexivity | apply Hmax; vm_compute; reflexivity].
Defined.
